(** * Btrfs collector of node_exporter: flattening of filesystem statistics

    Shallow embedding of [collector/btrfs_linux.go] and proofs of the
    properties its specification states about it. *)

From Stdlib Require Import ZArith NArith Lia.
From Stdlib Require Import Floats.SpecFloat.
From stdpp Require Import gmap strings list fin_maps.

Local Open Scope string_scope.
Local Open Scope list_scope.

(** ** Go values used by the collector *)

(** A Go [float64]: IEEE 754 binary64, as the specification of floating
    point numbers of the standard library has it. *)
Definition float64 : Type := spec_float.

Definition prec64 : Z := 53.
Definition emax64 : Z := 1024.

(** [float64(n)] for an unsigned integer [n]: the conversion rounds to the
    nearest representable value, ties to even. *)
Definition float64_of_uint (n : N) : float64 :=
  binary_normalize prec64 emax64 (Z.of_N n) 0 false.

(** The integer a [float64] denotes, when it denotes one. *)
Definition float64_int (f : float64) : option Z :=
  match f with
  | S754_zero _ => Some 0%Z
  | S754_finite s m e =>
      if (0 <=? e)%Z then Some (cond_Zopp s (Zpos m * 2 ^ e))%Z
      else if (Zpos m mod 2 ^ (- e) =? 0)%Z
           then Some (cond_Zopp s (Zpos m / 2 ^ (- e)))%Z
           else None
  | S754_infinity _ | S754_nan => None
  end.

(** A Go [error], by the message [%v] prints for it. *)
Definition error : Type := string.

(** [fmt.Errorf(prefix + ": %v", err)] *)
Definition Errorf (prefix : string) (err : error) : error :=
  prefix +:+ ": " +:+ err.

(** A Go string is a sequence of bytes, here the characters of a
    [string]; [byte b] is the string of the single byte [b]. *)
Definition byte (b : N) : string := String (Ascii.ascii_of_N b) "".

Definition between (lo hi : N) (c : Ascii.ascii) : bool :=
  (lo <=? Ascii.N_of_ascii c)%N && (Ascii.N_of_ascii c <=? hi)%N.

(** Package [unicode/utf8] *)
Module utf8.

(** What the tables [first] and [acceptRanges] give for a first byte that
    is not ASCII: the size of the encoding and the range of the second
    byte; [None] for a byte that starts no encoding. *)
Definition first (b : N) : option (nat * N * N) :=
  if ((194 <=? b) && (b <=? 223))%N then Some (2, 128%N, 191%N)
  else if (b =? 224)%N then Some (3, 160%N, 191%N)
  else if ((225 <=? b) && (b <=? 236))%N then Some (3, 128%N, 191%N)
  else if (b =? 237)%N then Some (3, 128%N, 159%N)
  else if ((238 <=? b) && (b <=? 239))%N then Some (3, 128%N, 191%N)
  else if (b =? 240)%N then Some (4, 144%N, 191%N)
  else if ((241 <=? b) && (b <=? 243))%N then Some (4, 128%N, 191%N)
  else if (b =? 244)%N then Some (4, 128%N, 143%N)
  else None.

(** [utf8.ValidString]: the string consists of well-formed encodings
    only. *)
Fixpoint ValidString (s : string) : bool :=
  match s with
  | EmptyString => true
  | String c s1 =>
      if (Ascii.N_of_ascii c <? 128)%N then ValidString s1
      else
        match first (Ascii.N_of_ascii c), s1 with
        | Some (size, lo, hi), String c1 s2 =>
            between lo hi c1 &&
            match size, s2 with
            | 2, _ => ValidString s2
            | _, String c2 s3 =>
                between 128 191 c2 &&
                match size, s3 with
                | 3, _ => ValidString s3
                | _, String c3 s4 => between 128 191 c3 && ValidString s4
                | _, _ => false
                end
            | _, _ => false
            end
        | _, _ => false
        end
  end.

End utf8.

(** ** The statistics source: package [procfs/btrfs]

    Only the fields the collector reads.  Pointers are [option]s, [None]
    being [nil]; byte counts are unsigned 64-bit integers. *)
Module btrfs.

Record LayoutUsage : Type := {
  UsedBytes : N;
  TotalBytes : N;
  Ratio : float64
}.

Record AllocationStats : Type := {
  ReservedBytes : N;
  Single : option LayoutUsage;
  Dup : option LayoutUsage;
  Raid0 : option LayoutUsage;
  Raid1 : option LayoutUsage;
  Raid5 : option LayoutUsage;
  Raid6 : option LayoutUsage;
  Raid10 : option LayoutUsage
}.

Record Allocation_t : Type := {
  GlobalRsvSize : N;
  Data : option AllocationStats;
  Metadata : option AllocationStats;
  System : option AllocationStats
}.

(** An entry of [Devices], of which the collector reads the size. *)
Record Device : Type := { Size : N }.

(** [Devices] is ranged over with a string key (source line 89, the key
    is used as a label value): a Go map keyed by device name. *)
Record Stats : Type := {
  UUID : string;
  Label : string;
  Allocation : Allocation_t;
  Devices : gmap string Device
}.

End btrfs.
Import btrfs.

(** ** Panics

    A Go function either returns or panics; a nil dereference and a failed
    [Must...] constructor panic. *)
Inductive outcome (A : Type) : Type :=
  | Done (a : A)
  | Panic.
Arguments Done {A} a.
Arguments Panic {A}.

#[global] Instance outcome_ret : MRet outcome := λ A a, Done a.
#[global] Instance outcome_bind : MBind outcome := λ A B f o,
  match o with
  | Done a => f a
  | Panic => Panic
  end.

(** ** The metrics library: package [client_golang/prometheus]

    What the collector calls of it, with a metric kept as the record of the
    arguments it was built from, and the checks under which the library
    builds one. *)
Module prometheus.

Inductive ValueType : Type := CounterValue | GaugeValue | UntypedValue.

Record Desc : Type := {
  fqName : string;
  help : string;
  variableLabels : list string;
  constLabels : list (string * string)
}.

Record Metric : Type := {
  metricDesc : Desc;
  valType : ValueType;
  val : float64;
  labelValues : list string
}.

(** Joins the non-empty components with an underscore; an empty name
    gives an empty result. *)
Definition BuildFQName (namespace subsystem name : string) : string :=
  if bool_decide (name = "") then ""
  else if bool_decide (namespace ≠ "") && bool_decide (subsystem ≠ "")
       then namespace +:+ "_" +:+ subsystem +:+ "_" +:+ name
  else if bool_decide (namespace ≠ "") then namespace +:+ "_" +:+ name
  else if bool_decide (subsystem ≠ "") then subsystem +:+ "_" +:+ name
  else name.

Definition NewDesc (fqName help : string) (variableLabels : list string)
    (constLabels : list (string * string)) : Desc :=
  {| fqName := fqName; help := help;
     variableLabels := variableLabels; constLabels := constLabels |}.

(** The characters of a name: a letter, an underscore, a colon where
    [colon] allows it, and a digit after the first character. *)
Definition name_char (colon initial : bool) (c : Ascii.ascii) : bool :=
  between 97 122 c || between 65 90 c || between 95 95 c
  || (colon && between 58 58 c) || (negb initial && between 48 57 c).

Fixpoint name_chars (colon initial : bool) (n : string) : bool :=
  match n with
  | EmptyString => true
  | String c n' => name_char colon initial c && name_chars colon false n'
  end.

(** [model.IsValidMetricName] *)
Definition IsValidMetricName (n : string) : bool :=
  negb (bool_decide (n = "")) && name_chars true true n.

(** [checkLabelName]: a valid label name that does not start with the
    reserved two underscores. *)
Definition checkLabelName (l : string) : bool :=
  negb (bool_decide (l = "")) && name_chars false true l
  && negb (String.prefix "__" l).

(** [validateLabelValues]: as many values as expected, each of them valid
    UTF-8. *)
Definition validateLabelValues (vals : list string) (expectedNumberOfValues : nat)
    : bool :=
  bool_decide (length vals = expectedNumberOfValues)
  && forallb utf8.ValidString vals.

(** Whether [NewDesc] records an error in the description it returns: an
    invalid metric name, an invalid label name or value among the
    constant labels, an invalid variable label name, or a label name that
    occurs twice.  The error is a function of the arguments of [NewDesc],
    which the description keeps. *)
Definition desc_err (d : Desc) : bool :=
  negb (IsValidMetricName (fqName d))
  || negb (forallb checkLabelName (constLabels d).*1)
  || negb (validateLabelValues (fqName d :: (constLabels d).*2)
             (S (length (constLabels d))))
  || negb (forallb checkLabelName (variableLabels d))
  || negb (bool_decide (NoDup ((constLabels d).*1 ++ variableLabels d))).

(** [NewConstMetric]: no metric ([None] for the error) for a description
    with an error or for label values that do not validate against the
    variable labels of the description. *)
Definition NewConstMetric (desc : Desc) (valueType : ValueType)
    (value : float64) (labelValues : list string) : option Metric :=
  if desc_err desc then None
  else if validateLabelValues labelValues (length (variableLabels desc))
  then Some {| metricDesc := desc; valType := valueType;
               val := value; labelValues := labelValues |}
  else None.

(** [MustNewConstMetric] panics where [NewConstMetric] returns an
    error. *)
Definition MustNewConstMetric (desc : Desc) (valueType : ValueType)
    (value : float64) (labelValues : list string) : outcome Metric :=
  match NewConstMetric desc valueType value labelValues with
  | Some m => Done m
  | None => Panic
  end.

End prometheus.
Import prometheus.

(** ** The output channel

    A computation of the collector sends metrics on the channel [ch] and
    returns or panics; the state is the sequence of metrics sent so far. *)
Definition chan (A : Type) : Type := list Metric → list Metric * outcome A.

#[global] Instance chan_ret : MRet chan := λ A a ch, (ch, Done a).
#[global] Instance chan_bind : MBind chan := λ A B f m ch,
  match m ch with
  | (ch', Done a) => f a ch'
  | (ch', Panic) => (ch', Panic)
  end.

(** [ch <- m] *)
Definition send (m : Metric) : chan unit := λ ch, (ch ++ [m], Done tt).

(** A step that touches the channel only by panicking or not. *)
Definition lift {A : Type} (o : outcome A) : chan A := λ ch, (ch, o).

(** [for _, x := range l { body }] over a slice *)
Fixpoint range_slice {A : Type} (l : list A) (body : A → chan unit) : chan unit :=
  match l with
  | [] => mret tt
  | x :: l' => body x ;; range_slice l' body
  end.

(** [range] over a Go map visits every entry once, in an order the
    language leaves unspecified and that may differ from one iteration to
    the next: [it] is a possible order of visit of [m]. *)
Definition range_order {V : Type} (m : gmap string V) (it : list (string * V)) : Prop :=
  it ≡ₚ map_to_list m.

(** ** The collector: [collector/btrfs_linux.go] *)

Record btrfsMetric : Type := {
  name : string;
  desc : string;
  value : float64;
  extraLabel : list string;
  extraLabelValue : list string
}.

(** [getLayoutStats] (the receiver is unused) *)
Definition getLayoutStats (a l : string) (s : option LayoutUsage) : list btrfsMetric :=
  match s with
  | None => []
  | Some s =>
      [ {| name := "used_bytes";
           desc := "Amount of used space by a layout/data type";
           value := float64_of_uint (UsedBytes s);
           extraLabel := ["type"; "mode"];
           extraLabelValue := [a; l] |};
        {| name := "total_bytes";
           desc := "Amount of space allocated for a layout/data type";
           value := float64_of_uint (TotalBytes s);
           extraLabel := ["type"; "mode"];
           extraLabelValue := [a; l] |};
        {| name := "ratio";
           desc := "Data allocation ratio for a layout/data type";
           value := Ratio s;
           extraLabel := ["type"; "mode"];
           extraLabelValue := [a; l] |} ]
  end.

(** [getAllocationStats]: reading [s.ReservedBytes] through a nil [s]
    panics. *)
Definition getAllocationStats (a : string) (s : option AllocationStats)
    : outcome (list btrfsMetric) :=
  match s with
  | None => Panic
  | Some s =>
      let metrics :=
        [ {| name := "reserved_bytes";
             desc := "Amount of space reserved for a data type";
             value := float64_of_uint (ReservedBytes s);
             extraLabel := ["type"];
             extraLabelValue := [a] |} ] in
      let metrics := metrics ++ getLayoutStats a "single" (Single s) in
      let metrics := metrics ++ getLayoutStats a "dup" (Dup s) in
      let metrics := metrics ++ getLayoutStats a "raid0" (Raid0 s) in
      let metrics := metrics ++ getLayoutStats a "raid1" (Raid1 s) in
      let metrics := metrics ++ getLayoutStats a "raid5" (Raid5 s) in
      let metrics := metrics ++ getLayoutStats a "raid6" (Raid6 s) in
      let metrics := metrics ++ getLayoutStats a "raid10" (Raid10 s) in
      Done metrics
  end.

Section Collector.

(** The metric namespace of the exporter, a constant of package
    [collector] declared in another file. *)
Variable namespace : string.

Definition subsystem : string := "btrfs".

(** The body of the loop that sends the metrics (lines 105 to 126). *)
Definition sendMetric (s : Stats) (m : btrfsMetric) : chan unit :=
  let devLabels := ["label"; "uuid"] in
  let labels := devLabels ++ extraLabel m in
  let desc := NewDesc (BuildFQName namespace subsystem (name m)) (desc m) labels [] in
  let labelValues := [Label s; UUID s] in
  let labelValues :=
    if (0 <? length (extraLabelValue m))%nat
    then labelValues ++ extraLabelValue m
    else labelValues in
  M ← lift (MustNewConstMetric desc GaugeValue (value m) labelValues);
  send M.

(** [updateBtrfsStats], with [it] the order in which [range] visits
    [s.Devices].  The snapshot is a pointer: a nil one panics at the
    first field read. *)
Definition updateBtrfsStats (s : option Stats) (it : list (string * Device))
    : chan unit :=
  match s with
  | None => lift Panic
  | Some s =>
      let metrics :=
        [ {| name := "device_count";
             desc := "Number of devices that are part of the filesystem.";
             value := float64_of_uint (N.of_nat (size (Devices s)));
             extraLabel := [];
             extraLabelValue := [] |};
          {| name := "global_rsv_size_bytes";
             desc := "Size of global reserve.";
             value := float64_of_uint (GlobalRsvSize (Allocation s));
             extraLabel := [];
             extraLabelValue := [] |} ] in
      let metrics :=
        foldl (λ metrics '(n, dev),
                 metrics ++
                 [ {| name := "device_size";
                      desc := "Size of a device that is part of the filesystem.";
                      value := float64_of_uint (Size dev);
                      extraLabel := ["device"];
                      extraLabelValue := [n] |} ])
              metrics it in
      data ← lift (getAllocationStats "data" (Data (Allocation s)));
      let metrics := metrics ++ data in
      metadata ← lift (getAllocationStats "metadata" (Metadata (Allocation s)));
      let metrics := metrics ++ metadata in
      system ← lift (getAllocationStats "system" (System (Allocation s)));
      let metrics := metrics ++ system in
      range_slice metrics (sendMetric s)
  end.

(** The metrics one snapshot puts on an empty channel. *)
Definition flatten (s : Stats) (it : list (string * Device)) : list Metric :=
  (updateBtrfsStats (Some s) it []).1.

(** The statistics source: the handle type of [procfs/btrfs], how it is
    opened, and what its [Stats] method answers. *)
Variable FS : Type.
Variable NewFS : string → FS * option error.
Variable FS_Stats : FS → list (option Stats) * option error.

(** The configured path of the sysfs mount, a flag of package
    [collector] declared in another file. *)
Variable sysPath : string.

Record btrfsCollector : Type := { fs : FS }.

(** [NewBtrfsCollector]: the pair the Go function returns. *)
Definition NewBtrfsCollector : option btrfsCollector * option error :=
  let '(fs, err) := NewFS sysPath in
  match err with
  | Some err => (None, Some (Errorf "failed to open sysfs" err))
  | None => (Some {| fs := fs |}, None)
  end.

(** The loop of [Update] over the snapshots; [its i] is the order in
    which [range] visits the devices of the snapshot at index [i]. *)
Fixpoint rangeStats (its : nat → list (string * Device)) (i : nat)
    (stats : list (option Stats)) : chan unit :=
  match stats with
  | [] => mret tt
  | s :: stats' =>
      updateBtrfsStats s (its i) ;; rangeStats its (S i) stats'
  end.

(** [Update] *)
Definition Update (c : btrfsCollector) (its : nat → list (string * Device))
    : chan (option error) :=
  let '(stats, err) := FS_Stats (fs c) in
  match err with
  | Some err => mret (Some (Errorf "failed to retrieve Btrfs stats" err))
  | None => rangeStats its 0 stats ;; mret None
  end.

End Collector.

(** ** The flattening as the specification describes it

    The three allocation categories and the seven layouts as closed
    enumerations, each with its name and its accessor, and the sequence of
    emissions as the nested enumeration of section 4.1. *)

Inductive Category : Type := data | metadata | system.
Inductive Layout : Type := single | dup | raid0 | raid1 | raid5 | raid6 | raid10.

Definition all_categories : list Category := [data; metadata; system].
Definition all_layouts : list Layout :=
  [single; dup; raid0; raid1; raid5; raid6; raid10].

Definition category_name (c : Category) : string :=
  match c with
  | data => "data"
  | metadata => "metadata"
  | system => "system"
  end.

Definition category_record (c : Category) (a : Allocation_t) : option AllocationStats :=
  match c with
  | data => Data a
  | metadata => Metadata a
  | system => System a
  end.

Definition layout_name (l : Layout) : string :=
  match l with
  | single => "single"
  | dup => "dup"
  | raid0 => "raid0"
  | raid1 => "raid1"
  | raid5 => "raid5"
  | raid6 => "raid6"
  | raid10 => "raid10"
  end.

Definition layout_record (l : Layout) (st : AllocationStats) : option LayoutUsage :=
  match l with
  | single => Single st
  | dup => Dup st
  | raid0 => Raid0 st
  | raid1 => Raid1 st
  | raid5 => Raid5 st
  | raid6 => Raid6 st
  | raid10 => Raid10 st
  end.

(** A snapshot in the sense of the specification has its three category
    records. *)
Definition categories_present (s : Stats) : bool :=
  forallb (λ c, bool_decide (is_Some (category_record c (Allocation s))))
          all_categories.

(** The number of layouts a category record has. *)
Definition present_layouts (st : option AllocationStats) : nat :=
  match st with
  | None => 0
  | Some st =>
      length (filter (λ l, is_Some (layout_record l st)) all_layouts)
  end.

(** The extra label names and values of a metric pair up. *)
Definition aligned (m : btrfsMetric) : Prop :=
  length (extraLabel m) = length (extraLabelValue m).

(** The metric the loop over the devices appends for one entry. *)
Definition device_metric (d : string * Device) : btrfsMetric :=
  {| name := "device_size";
     desc := "Size of a device that is part of the filesystem.";
     value := float64_of_uint (Size d.2);
     extraLabel := ["device"];
     extraLabelValue := [d.1] |}.

(** The label names of a metric bound to its label values. *)
Definition labels_of (M : Metric) : list (string * string) :=
  zip (variableLabels (metricDesc M)) (labelValues M).

Section Specification.

Variable namespace : string.

(** One emission: a gauge named in the namespace of the subsystem, with
    the base labels of the snapshot before the extra ones. *)
Definition emission (s : Stats) (name help : string) (v : float64)
    (extra : list (string * string)) : Metric :=
  {| metricDesc :=
       {| fqName := BuildFQName namespace "btrfs" name;
          help := help;
          variableLabels := ["label"; "uuid"] ++ extra.*1;
          constLabels := [] |};
     valType := GaugeValue;
     val := v;
     labelValues := [Label s; UUID s] ++ extra.*2 |}.

(** The emission of a metric of the collector whose extra label names
    and values have the same length. *)
Definition emit (s : Stats) (m : btrfsMetric) : Metric :=
  emission s (name m) (desc m) (value m)
    (zip (extraLabel m) (extraLabelValue m)).

Definition layout_emissions (s : Stats) (c : Category) (l : Layout)
    (u : option LayoutUsage) : list Metric :=
  match u with
  | None => []
  | Some u =>
      let extra := [("type", category_name c); ("mode", layout_name l)] in
      [ emission s "used_bytes" "Amount of used space by a layout/data type"
          (float64_of_uint (UsedBytes u)) extra;
        emission s "total_bytes" "Amount of space allocated for a layout/data type"
          (float64_of_uint (TotalBytes u)) extra;
        emission s "ratio" "Data allocation ratio for a layout/data type"
          (Ratio u) extra ]
  end.

Definition category_emissions (s : Stats) (c : Category) : list Metric :=
  match category_record c (Allocation s) with
  | None => []
  | Some st =>
      emission s "reserved_bytes" "Amount of space reserved for a data type"
        (float64_of_uint (ReservedBytes st)) [("type", category_name c)]
      :: flat_map (λ l, layout_emissions s c l (layout_record l st)) all_layouts
  end.

Definition device_emission (s : Stats) (d : string * Device) : Metric :=
  emission s "device_size" "Size of a device that is part of the filesystem."
    (float64_of_uint (Size d.2)) [("device", d.1)].

(** [devices] is the sequence in which the devices are taken. *)
Definition flatten_spec (s : Stats) (devices : list (string * Device)) : list Metric :=
  [ emission s "device_count" "Number of devices that are part of the filesystem."
      (float64_of_uint (N.of_nat (size (Devices s)))) [];
    emission s "global_rsv_size_bytes" "Size of global reserve."
      (float64_of_uint (GlobalRsvSize (Allocation s))) [] ]
  ++ map (device_emission s) devices
  ++ flat_map (category_emissions s) all_categories.

End Specification.

#[global] Instance Category_eq_dec : EqDecision Category.
Proof. solve_decision. Defined.
#[global] Instance Layout_eq_dec : EqDecision Layout.
Proof. solve_decision. Defined.

(** The metrics of one layout of one category are those bound to its two
    extra labels. *)
Definition for_layout (c : Category) (l : Layout) (M : Metric) : Prop :=
  drop 2 (labels_of M) = [("type", category_name c); ("mode", layout_name l)].

#[global] Instance for_layout_dec c l M : Decision (for_layout c l M).
Proof. unfold for_layout. apply _. Defined.

(** The extra labels a metric of the collector can carry, over the devices
    [it]: none, the device name, the category, or the category and the
    layout. *)
Definition extra_labels (it : list (string * Device)) (extra : list (string * string)) : Prop :=
  extra = []
  ∨ (∃ d, d ∈ it ∧ extra = [("device", d.1)])
  ∨ (∃ c, extra = [("type", category_name c)])
  ∨ (∃ c l, extra = [("type", category_name c); ("mode", layout_name l)]).

(** The statistics a snapshot is flattened from, in the order of the
    emissions: the integer ones, and the ratios, which are floating-point
    numbers at the source. *)
Definition layout_values (u : option LayoutUsage) : list (N + float64) :=
  match u with
  | None => []
  | Some u => [inl (UsedBytes u); inl (TotalBytes u); inr (Ratio u)]
  end.

Definition category_values (st : option AllocationStats) : list (N + float64) :=
  match st with
  | None => []
  | Some st =>
      inl (ReservedBytes st)
      :: flat_map (λ l, layout_values (layout_record l st)) all_layouts
  end.

Definition source_values (s : Stats) (it : list (string * Device)) : list (N + float64) :=
  [inl (N.of_nat (size (Devices s))); inl (GlobalRsvSize (Allocation s))]
  ++ map (λ d, inl (Size d.2)) it
  ++ flat_map (λ c, category_values (category_record c (Allocation s))) all_categories.

(** An emitted value carries its statistic: an integer one converted, and
    exactly so below [2 ^ 53]; a ratio as it is. *)
Definition carries (M : Metric) (v : N + float64) : Prop :=
  match v with
  | inl n =>
      val M = float64_of_uint n
      ∧ ((n < 2 ^ 53)%N → float64_int (val M) = Some (Z.of_N n))
  | inr r => val M = r
  end.

(** ** What the collector exposes *)

(** The metric families of the collector: the descriptions the sending
    loop builds, one per metric name of the source. *)
Definition descriptors (namespace : string) : list Desc :=
  [ NewDesc (BuildFQName namespace "btrfs" "device_count")
      "Number of devices that are part of the filesystem."
      ["label"; "uuid"] [];
    NewDesc (BuildFQName namespace "btrfs" "global_rsv_size_bytes")
      "Size of global reserve."
      ["label"; "uuid"] [];
    NewDesc (BuildFQName namespace "btrfs" "device_size")
      "Size of a device that is part of the filesystem."
      ["label"; "uuid"; "device"] [];
    NewDesc (BuildFQName namespace "btrfs" "reserved_bytes")
      "Amount of space reserved for a data type"
      ["label"; "uuid"; "type"] [];
    NewDesc (BuildFQName namespace "btrfs" "used_bytes")
      "Amount of used space by a layout/data type"
      ["label"; "uuid"; "type"; "mode"] [];
    NewDesc (BuildFQName namespace "btrfs" "total_bytes")
      "Amount of space allocated for a layout/data type"
      ["label"; "uuid"; "type"; "mode"] [];
    NewDesc (BuildFQName namespace "btrfs" "ratio")
      "Data allocation ratio for a layout/data type"
      ["label"; "uuid"; "type"; "mode"] [] ].

(** The metric of the device named [k] is the one bound to it by the
    extra label device. *)
Definition for_device (k : string) (M : Metric) : Prop :=
  drop 2 (labels_of M) = [("device", k)].

#[global] Instance for_device_dec k M : Decision (for_device k M).
Proof. unfold for_device. apply _. Defined.

(** The metrics about a device are those with the extra label device. *)
Definition about_device (M : Metric) : Prop :=
  drop 2 (variableLabels (metricDesc M)) = ["device"].

#[global] Instance about_device_dec M : Decision (about_device M).
Proof. unfold about_device. apply _. Defined.

(** What the registry tells two metrics of a scrape apart by: the name
    and the label values. *)
Definition series (M : Metric) : string * list string :=
  (fqName (metricDesc M), labelValues M).

(** The names and the extra label values of the metrics of a layout and of
    a category when every layout has a record, and of the two metrics every
    snapshot has. *)
Definition layout_keys (c : Category) (l : Layout) : list (string * list string) :=
  [ ("used_bytes", [category_name c; layout_name l]);
    ("total_bytes", [category_name c; layout_name l]);
    ("ratio", [category_name c; layout_name l]) ].

Definition category_keys (c : Category) : list (string * list string) :=
  ("reserved_bytes", [category_name c]) :: flat_map (layout_keys c) all_layouts.

Definition snapshot_keys : list (string * list string) :=
  [("device_count", []); ("global_rsv_size_bytes", [])].

Definition device_key (d : string * Device) : string * list string :=
  ("device_size", [d.1]).

(** The series of the metric with a given name and extra label values. *)
Definition series_of_key (namespace : string) (s : Stats)
    (k : string * list string) : string * list string :=
  (BuildFQName namespace "btrfs" k.1, Label s :: UUID s :: k.2).

(** ** When the library builds the metrics

    [MustNewConstMetric] builds a metric or panics: the metric passes when
    its description has no error and its label values validate. *)
Definition passes (M : Metric) : bool :=
  negb (desc_err (metricDesc M))
  && validateLabelValues (labelValues M) (length (variableLabels (metricDesc M))).

(** What a sending loop puts on the channel of a sequence of metrics: those
    before the first one that does not pass. *)
Fixpoint sent (l : list Metric) : list Metric :=
  match l with
  | M :: l' => if passes M then M :: sent l' else []
  | [] => []
  end.

(** The seven descriptions of the collector have no error: so it is
    for the namespace of the exporter, node. *)
Definition namespace_valid (namespace : string) : bool :=
  forallb (λ d, negb (desc_err d)) (descriptors namespace).

(** The strings of a snapshot that become label values, the label, the
    unique id and the names of the devices visited, are valid UTF-8. *)
Definition labels_valid (s : Stats) (it : list (string * Device)) : bool :=
  utf8.ValidString (Label s) && utf8.ValidString (UUID s)
  && forallb (λ d, utf8.ValidString d.1) it.

(** A snapshot that [updateBtrfsStats] flattens to the end: it has its
    three categories and valid label values. *)
Definition completes (s : Stats) (it : list (string * Device)) : bool :=
  categories_present s && labels_valid s it.

(** The snapshots the loop of [Update] takes up: those before the first
    nil one, up to the first that is not flattened to the end. *)
Fixpoint attempted (its : nat → list (string * Device)) (i : nat)
    (stats : list (option Stats)) : list Stats :=
  match stats with
  | Some s :: stats' =>
      if completes s (its i) then s :: attempted its (S i) stats' else [s]
  | _ => []
  end.

(** Whether the loop of [Update] comes to its end. *)
Fixpoint all_complete (its : nat → list (string * Device)) (i : nat)
    (stats : list (option Stats)) : bool :=
  match stats with
  | Some s :: stats' => completes s (its i) && all_complete its (S i) stats'
  | None :: _ => false
  | [] => true
  end.

(** ** Sample snapshots and statistics sources *)

Definition no_layouts (reserved : N) : AllocationStats :=
  {| ReservedBytes := reserved;
     Single := None; Dup := None; Raid0 := None; Raid1 := None;
     Raid5 := None; Raid6 := None; Raid10 := None |}.

(** The [float64] 0.25 *)
Definition quarter : float64 := S754_finite false 4503599627370496 (-54).

Definition sda : string * Device := ("sda", {| Size := 100 |}).
Definition sdb : string * Device := ("sdb", {| Size := 200 |}).

(** The example of section 8 of the specification. *)
Definition vol1 : Stats :=
  {| UUID := "abc";
     Label := "vol1";
     Allocation :=
       {| GlobalRsvSize := 50;
          Data :=
            Some {| ReservedBytes := 10;
                    Single := Some {| UsedBytes := 5; TotalBytes := 20;
                                      Ratio := quarter |};
                    Dup := None; Raid0 := None; Raid1 := None;
                    Raid5 := None; Raid6 := None; Raid10 := None |};
          Metadata := Some (no_layouts 0);
          System := Some (no_layouts 0) |};
     Devices := {[ sda.1 := sda.2 ]} |}.

(** Two devices, and the layouts single and raid1 for the data. *)
Definition vol2 : Stats :=
  {| UUID := "def";
     Label := "vol2";
     Allocation :=
       {| GlobalRsvSize := 16;
          Data :=
            Some {| ReservedBytes := 0;
                    Single := Some {| UsedBytes := 1; TotalBytes := 2;
                                      Ratio := quarter |};
                    Dup := None; Raid0 := None;
                    Raid1 := Some {| UsedBytes := 3; TotalBytes := 4;
                                     Ratio := quarter |};
                    Raid5 := None; Raid6 := None; Raid10 := None |};
          Metadata := Some (no_layouts 7);
          System := Some (no_layouts 8) |};
     Devices := <[ sdb.1 := sdb.2 ]> {[ sda.1 := sda.2 ]} |}.

(** A statistics source that answers with [vol1], and one that fails. *)
Definition stats_vol1 (_ : unit) : list (option Stats) * option error :=
  ([Some vol1], None).
Definition stats_failing (_ : unit) : list (option Stats) * option error :=
  ([], Some "permission denied").

(** A sysfs that opens, and one that does not. *)
Definition open_sysfs (_ : string) : unit * option error := (tt, None).
Definition closed_sysfs (_ : string) : unit * option error :=
  (tt, Some "no such file or directory").

(** [vol1] without its system record. *)
Definition no_system : Stats :=
  {| UUID := UUID vol1;
     Label := Label vol1;
     Allocation :=
       {| GlobalRsvSize := 50;
          Data := Data (Allocation vol1);
          Metadata := Metadata (Allocation vol1);
          System := None |};
     Devices := Devices vol1 |}.

(** A statistics source whose second snapshot lacks a record, and one
    that answers two snapshots with all their records. *)
Definition stats_broken (_ : unit) : list (option Stats) * option error :=
  ([Some vol2; Some no_system; Some vol1], None).
Definition stats_pool (_ : unit) : list (option Stats) * option error :=
  ([Some vol2; Some vol1], None).

(** Two visits of the devices of the snapshots of these sources, which
    differ at the first snapshot. *)
Definition visits (i : nat) : list (string * Device) :=
  match i with 0 => [sdb; sda] | _ => [sda] end.
Definition visits_sorted (i : nat) : list (string * Device) :=
  match i with 0 => [sda; sdb] | _ => [sda] end.

(** [vol1] with a label that is not valid UTF-8: the single byte 255. *)
Definition vol_bad : Stats :=
  {| UUID := UUID vol1;
     Label := byte 255;
     Allocation := Allocation vol1;
     Devices := Devices vol1 |}.

(** A device whose name ends in the first byte of a two-byte encoding,
    and [vol2] with this device in the place of sdb. *)
Definition sdx : string * Device := ("sd" +:+ byte 195, {| Size := 300 |}).

Definition vol_odd : Stats :=
  {| UUID := UUID vol2;
     Label := Label vol2;
     Allocation := Allocation vol2;
     Devices := <[ sdx.1 := sdx.2 ]> {[ sda.1 := sda.2 ]} |}.

(** A statistics source that answers with [vol_bad]. *)
Definition stats_bad (_ : unit) : list (option Stats) * option error :=
  ([Some vol_bad], None).

(** ** The conversion of integers to [float64] *)

Lemma digits2_pos_size p : digits2_pos p = Pos.size p.
Proof. induction p; simpl; congruence. Qed.

Lemma digits2_pos_bound (p : positive) (k : Z) :
  (0 <= k)%Z → (Zpos p < 2 ^ k)%Z → (Zpos (digits2_pos p) <= k)%Z.
Proof.
  intros Hk Hp. rewrite digits2_pos_size.
  pose proof (Pos.size_le p) as Hle.
  destruct (Z_le_gt_dec (Zpos (Pos.size p)) k) as [|Hgt]; [done|].
  exfalso.
  assert (2 ^ (k + 1) <= 2 ^ Zpos (Pos.size p))%Z as H1
    by (apply Z.pow_le_mono_r; lia).
  assert (2 ^ Zpos (Pos.size p) <= Zpos p~0)%Z as H2.
  { change (2 ^ Zpos (Pos.size p))%Z with (Z.pow_pos 2 (Pos.size p)).
    rewrite <- Pos2Z.inj_pow_pos. apply Pos2Z.pos_le_pos. exact Hle. }
  rewrite Z.pow_add_r in H1 by lia. lia.
Qed.

Lemma iter_xO_digits (p k : positive) :
  digits2_pos (Pos.iter xO p k) = (digits2_pos p + k)%positive.
Proof.
  induction k as [|k IH] using Pos.peano_ind.
  - simpl. lia.
  - rewrite Pos.iter_succ. simpl. rewrite IH. lia.
Qed.

Lemma iter_xO_value (p k : positive) :
  Zpos (Pos.iter xO p k) = (Zpos p * 2 ^ Zpos k)%Z.
Proof.
  induction k as [|k IH] using Pos.peano_ind.
  - simpl. lia.
  - rewrite Pos.iter_succ, Pos2Z.inj_xO, IH, Pos2Z.inj_succ, Z.pow_succ_r by lia.
    lia.
Qed.

Lemma binary_round_aux_canonical (s : bool) (m : positive) (e : Z) :
  fexp prec64 emax64 (Zpos (digits2_pos m) + e) = e →
  (e <= emax64 - prec64)%Z →
  binary_round_aux prec64 emax64 s (Zpos m) e loc_Exact = S754_finite s m e.
Proof.
  intros Hc He. unfold binary_round_aux, shr_fexp. cbn [Zdigits2 shr_record_of_loc].
  rewrite Hc, Z.sub_diag. cbn [shr shr_m loc_of_shr_record round_nearest_even Zdigits2 shr_record_of_loc].
  rewrite Hc, Z.sub_diag. cbn [shr shr_m].
  apply Z.leb_le in He. by rewrite He.
Qed.

Lemma float64_of_uint_exact (n : N) :
  (n < 2 ^ 53)%N → float64_int (float64_of_uint n) = Some (Z.of_N n).
Proof.
  intros Hn. destruct n as [|p]; [done|].
  assert (Zpos p < 2 ^ 53)%Z as Hp by lia.
  pose proof (digits2_pos_bound p 53 ltac:(lia) Hp) as Hd.
  unfold float64_of_uint. cbn [Z.of_N binary_normalize]. unfold binary_round.
  rewrite Z.add_0_r.
  assert (fexp prec64 emax64 (Zpos (digits2_pos p)) = Zpos (digits2_pos p) - 53)%Z as Hf
    by (unfold fexp, emin, prec64, emax64; lia).
  rewrite Hf. unfold shl_align. rewrite Z.sub_0_r.
  destruct (Zpos (digits2_pos p) - 53)%Z as [|q|k] eqn:Hk; [|lia|].
  - rewrite binary_round_aux_canonical.
    + cbn. f_equal. lia.
    + rewrite Z.add_0_r, Hf. lia.
    + unfold emax64, prec64. lia.
  - rewrite binary_round_aux_canonical.
    + cbn [float64_int]. replace (0 <=? Z.neg k)%Z with false by (symmetry; apply Z.leb_gt; lia).
      change (- Z.neg k)%Z with (Zpos k). rewrite iter_xO_value.
      rewrite Z.mod_mul by lia. cbn [Z.eqb]. rewrite Z.div_mul by lia. done.
    + rewrite iter_xO_digits. unfold fexp, emin, prec64, emax64. lia.
    + unfold emax64, prec64. lia.
Qed.

Lemma digits2_pos_range (p : positive) :
  (2 ^ (Zpos (digits2_pos p) - 1) <= Zpos p < 2 ^ Zpos (digits2_pos p))%Z.
Proof.
  rewrite digits2_pos_size. split.
  - pose proof (Pos.size_le p) as Hle.
    assert (2 ^ Zpos (Pos.size p) <= Zpos p~0)%Z as H2.
    { change (2 ^ Zpos (Pos.size p))%Z with (Z.pow_pos 2 (Pos.size p)).
      rewrite <- Pos2Z.inj_pow_pos. apply Pos2Z.pos_le_pos. exact Hle. }
    replace (Zpos (Pos.size p)) with (Z.succ (Zpos (Pos.size p) - 1)) in H2 by lia.
    rewrite Z.pow_succ_r in H2 by lia. lia.
  - pose proof (Pos.size_gt p) as Hgt.
    change (2 ^ Zpos (Pos.size p))%Z with (Z.pow_pos 2 (Pos.size p)).
    rewrite <- Pos2Z.inj_pow_pos. apply Pos2Z.pos_lt_pos. exact Hgt.
Qed.

Lemma digits2_pos_unique (p : positive) (a : Z) :
  (2 ^ (a - 1) <= Zpos p < 2 ^ a)%Z → Zpos (digits2_pos p) = a.
Proof.
  intros [Hlo Hhi]. pose proof (digits2_pos_range p) as [Hlo' Hhi'].
  assert (0 < a)%Z as Ha.
  { destruct a as [|a|a]; [simpl in Hhi; lia | lia |].
    rewrite Z.pow_neg_r in Hhi by lia. lia. }
  destruct (Z.lt_trichotomy (Zpos (digits2_pos p)) a) as [Hlt|[Heq|Hgt]]; [|done|].
  - assert (2 ^ Zpos (digits2_pos p) <= 2 ^ (a - 1))%Z
      by (apply Z.pow_le_mono_r; lia). lia.
  - assert (2 ^ a <= 2 ^ (Zpos (digits2_pos p) - 1))%Z
      by (apply Z.pow_le_mono_r; lia). lia.
Qed.

Lemma shr_1_m (mrs : shr_record) :
  (0 <= shr_m mrs)%Z → shr_m (shr_1 mrs) = Z.div2 (shr_m mrs).
Proof. destruct mrs as [[|[p|p|]|p] r s]; cbn; (done || lia). Qed.

Lemma iter_shr_m (k : positive) (mrs : shr_record) :
  (0 <= shr_m mrs)%Z →
  shr_m (SpecFloat.iter_pos shr_1 k mrs) = (shr_m mrs / 2 ^ Zpos k)%Z.
Proof.
  revert mrs. induction k as [k IH|k IH|]; intros mrs Hm; cbn [SpecFloat.iter_pos].
  - assert (0 <= shr_m (shr_1 mrs))%Z as H1
      by (rewrite shr_1_m, Z.div2_div by done; apply Z.div_pos; lia).
    assert (0 <= shr_m (SpecFloat.iter_pos shr_1 k (shr_1 mrs)))%Z as H2
      by (rewrite IH by done; apply Z.div_pos; lia).
    rewrite (IH _ H2), (IH _ H1), shr_1_m, Z.div2_div by done.
    rewrite !Z.div_div by lia. f_equal.
    replace (Z.pos k~1) with (1 + Z.pos k + Z.pos k)%Z by lia.
    rewrite !Z.pow_add_r by lia. change (2 ^ 1)%Z with 2%Z. ring.
  - assert (0 <= shr_m (SpecFloat.iter_pos shr_1 k mrs))%Z as H2
      by (rewrite IH by done; apply Z.div_pos; lia).
    rewrite (IH _ H2), (IH _ Hm).
    rewrite !Z.div_div by lia. f_equal.
    replace (Z.pos k~0) with (Z.pos k + Z.pos k)%Z by lia.
    by rewrite !Z.pow_add_r by lia.
  - by rewrite shr_1_m, Z.div2_div by done.
Qed.

Lemma round_nearest_even_cases (m : Z) (l : location) :
  round_nearest_even m l = m ∨ round_nearest_even m l = (m + 1)%Z.
Proof. destruct l as [|[]]; cbn; try destruct (Z.even m); auto. Qed.

Lemma binary_round_aux_carry (r k : Z) :
  (2 ^ 52 <= r <= 2 ^ 53)%Z → (1 <= k <= 11)%Z →
  ∃ (m : positive) (e : Z),
    (let '(mrs, e') :=
       shr {| shr_m := r; shr_r := false; shr_s := false |} (0 + k)
           (fexp prec64 emax64 (Zdigits2 r + (0 + k)) - (0 + k)) in
     match shr_m mrs with
     | 0%Z => S754_zero false
     | Z.pos m0 =>
         if (e' <=? emax64 - prec64)%Z
         then S754_finite false m0 e'
         else S754_infinity false
     | Z.neg _ => S754_nan
     end) = S754_finite false m e
    ∧ (1 <= e <= 12)%Z
    ∧ (Zpos m * 2 ^ e = r * 2 ^ k)%Z.
Proof.
  intros Hr Hk.
  assert (∀ e : Z, (53 <= e <= 66)%Z → fexp prec64 emax64 e = e - 53)%Z as Hf
    by (intros e He; unfold fexp, emin, prec64, emax64; lia).
  destruct (Z.eq_dec r (2 ^ 53)%Z) as [->|Hne].
  - change (Zdigits2 (2 ^ 53)%Z) with 54%Z. rewrite Hf by lia.
    replace (54 + (0 + k) - 53 - (0 + k))%Z with 1%Z by lia.
    cbn [shr SpecFloat.iter_pos]. cbv beta iota.
    change (shr_m (shr_1 {| shr_m := (2 ^ 53)%Z; shr_r := false; shr_s := false |}))
      with (Z.pos (2 ^ 52)%positive).
    cbv beta iota.
    replace (0 + k + 1 <=? emax64 - prec64)%Z with true
      by (symmetry; apply Z.leb_le; unfold emax64, prec64; lia).
    eexists _, _. split; [reflexivity|]. split; [lia|].
    replace (0 + k + 1)%Z with (1 + k)%Z by lia.
    rewrite Z.pow_add_r by lia. change (Z.pos (2 ^ 52)%positive * (2 ^ 1 * 2 ^ k))%Z
      with (2 ^ 52 * (2 * 2 ^ k))%Z. change (2 ^ 53)%Z with (2 ^ 52 * 2)%Z. ring.
  - destruct r as [|r|r]; [cbn in Hr; lia| |lia].
    cbn [Zdigits2].
    rewrite (digits2_pos_unique r 53) by (change (53 - 1)%Z with 52%Z; lia).
    rewrite Hf by lia.
    replace (53 + (0 + k) - 53 - (0 + k))%Z with 0%Z by lia.
    cbn [shr shr_m]. cbv beta iota.
    replace (0 + k <=? emax64 - prec64)%Z with true
      by (symmetry; apply Z.leb_le; unfold emax64, prec64; lia).
    eexists _, _. split; [reflexivity|]. split; [lia|]. by rewrite Z.add_0_l.
Qed.

Lemma float64_of_uint_large (p : positive) :
  (2 ^ 53 <= Zpos p < 2 ^ 64)%Z →
  ∃ (m : positive) (e : Z),
    float64_of_uint (Npos p) = S754_finite false m e
    ∧ (1 <= e <= 12)%Z
    ∧ (Z.abs (Zpos m * 2 ^ e - Zpos p) * 2 ^ 52 <= Zpos p)%Z.
Proof.
  intros [Hlo Hhi].
  pose proof (digits2_pos_range p) as [Hdlo Hdhi].
  assert (54 <= Zpos (digits2_pos p) <= 64)%Z as Hd.
  { split.
    - destruct (Z_lt_le_dec (Zpos (digits2_pos p)) 54) as [Hlt|]; [|done].
      assert (2 ^ Zpos (digits2_pos p) <= 2 ^ 53)%Z
        by (apply Z.pow_le_mono_r; lia). lia.
    - destruct (Z_lt_le_dec 64 (Zpos (digits2_pos p))) as [Hlt|]; [|done].
      assert (2 ^ 64 <= 2 ^ (Zpos (digits2_pos p) - 1))%Z
        by (apply Z.pow_le_mono_r; lia). lia. }
  set (k := Z.to_pos (Zpos (digits2_pos p) - 53)).
  assert (Zpos (digits2_pos p) = 53 + Zpos k)%Z as Hk by (unfold k; lia).
  assert (1 <= Zpos k <= 11)%Z as Hk11 by lia.
  clearbody k.
  assert (∀ e : Z, (53 <= e <= 66)%Z → fexp prec64 emax64 e = e - 53)%Z as Hf
    by (intros e He; unfold fexp, emin, prec64, emax64; lia).
  set (q := (Zpos p / 2 ^ Zpos k)%Z).
  assert (0 < 2 ^ Zpos k)%Z as H2k by (apply Z.pow_pos_nonneg; lia).
  assert (2 ^ 52 <= q < 2 ^ 53)%Z as Hq.
  { rewrite Hk in Hdlo, Hdhi.
    replace (53 + Zpos k - 1)%Z with (52 + Zpos k)%Z in Hdlo by lia.
    rewrite Z.pow_add_r in Hdlo, Hdhi by lia. unfold q. split.
    - apply Z.div_le_lower_bound; lia.
    - apply Z.div_lt_upper_bound; lia. }
  assert (q * 2 ^ Zpos k <= Zpos p < (q + 1) * 2 ^ Zpos k)%Z as Hpq.
  { unfold q. pose proof (Z.div_mod (Zpos p) (2 ^ Zpos k) ltac:(lia)).
    pose proof (Z.mod_pos_bound (Zpos p) (2 ^ Zpos k) H2k). nia. }
  assert (2 ^ Zpos k <= 2 ^ 11)%Z as Hk2 by (apply Z.pow_le_mono_r; lia).
  unfold float64_of_uint. cbn [Z.of_N binary_normalize]. unfold binary_round.
  rewrite Z.add_0_r, Hf, Hk by lia.
  replace (53 + Zpos k - 53)%Z with (Zpos k) by lia.
  unfold shl_align. rewrite Z.sub_0_r. cbv beta iota.
  unfold binary_round_aux, shr_fexp. cbn [Zdigits2 shr_record_of_loc].
  rewrite Z.add_0_r, Hf, Hk by lia.
  replace (53 + Zpos k - 53 - 0)%Z with (Zpos k) by lia.
  cbn [shr]. cbv beta iota.
  set (t := SpecFloat.iter_pos shr_1 k _).
  assert (shr_m t = q) as Ht by (unfold t; by rewrite iter_shr_m).
  rewrite Ht.
  destruct (round_nearest_even_cases q (loc_of_shr_record t)) as [Hr|Hr];
    rewrite Hr; clear Hr;
    [ destruct (binary_round_aux_carry q (Zpos k)) as (m & e & -> & He & Hm)
    | destruct (binary_round_aux_carry (q + 1) (Zpos k)) as (m & e & -> & He & Hm) ];
    try lia; exists m, e; (split; [done|]); (split; [done|]); rewrite Hm;
    rewrite Hk in Hdlo;
    replace (53 + Zpos k - 1)%Z with (52 + Zpos k)%Z in Hdlo by lia;
    rewrite Z.pow_add_r in Hdlo by lia; nia.
Qed.

(** X1.  The conversion of an unsigned 64-bit integer never gives an
    infinity, a NaN or a negative number: it gives a [float64] that denotes
    an integer, not negative, equal to the converted one below [2 ^ 53]
    and off it by at most the fraction [2 ^ -52] of it above. *)
Theorem float64_of_uint_accurate (n : N) :
  (n < 2 ^ 64)%N →
  ∃ z : Z,
    float64_int (float64_of_uint n) = Some z
    ∧ (0 <= z)%Z
    ∧ ((n < 2 ^ 53)%N → z = Z.of_N n)
    ∧ (Z.abs (z - Z.of_N n) * 2 ^ 52 <= Z.of_N n)%Z.
Proof.
  intros Hn. destruct (N.lt_ge_cases n (2 ^ 53)) as [Hsmall|Hlarge].
  - exists (Z.of_N n). rewrite float64_of_uint_exact by done.
    split; [done|]. split; [lia|]. split; [done|]. rewrite Z.sub_diag. cbn. lia.
  - destruct n as [|p]; [by apply N.le_0_r in Hlarge|].
    destruct (float64_of_uint_large p) as (m & e & -> & He & Hm); [lia|].
    exists (Zpos m * 2 ^ e)%Z. cbn [float64_int cond_Zopp].
    replace (0 <=? e)%Z with true by (symmetry; apply Z.leb_le; lia).
    split; [done|]. split; [|split; [lia | done]].
    apply Z.mul_nonneg_nonneg; [lia|]. apply Z.pow_nonneg. lia.
Qed.

Section Flattening.

Variable namespace : string.

Lemma emit_aligned (s : Stats) (m : btrfsMetric) :
  aligned m →
  emit namespace s m
  = {| metricDesc :=
         NewDesc (BuildFQName namespace subsystem (name m)) (desc m)
           (["label"; "uuid"] ++ extraLabel m) [];
       valType := GaugeValue;
       val := value m;
       labelValues := [Label s; UUID s] ++ extraLabelValue m |}.
Proof.
  unfold aligned. intros Hlen. unfold emit, emission, NewDesc, subsystem.
  by rewrite fst_zip, snd_zip by lia.
Qed.

Lemma sendMetric_aligned (s : Stats) (m : btrfsMetric) (ch : list Metric) :
  aligned m →
  sendMetric namespace s m ch
  = if passes (emit namespace s m)
    then (ch ++ [emit namespace s m], Done tt) else (ch, Panic).
Proof.
  intros Hm. rewrite emit_aligned by done.
  unfold sendMetric, mbind, chan_bind, lift, send, MustNewConstMetric,
    NewConstMetric, passes.
  cbn [metricDesc labelValues].
  replace (if (0 <? length (extraLabelValue m))%nat
           then [Label s; UUID s] ++ extraLabelValue m else [Label s; UUID s])
    with ([Label s; UUID s] ++ extraLabelValue m)
    by (by destruct (extraLabelValue m)).
  destruct (desc_err _); [done|].
  by destruct (validateLabelValues _ _).
Qed.

Lemma sent_prefix (l : list Metric) : sent l `prefix_of` l.
Proof.
  induction l as [|M l IH]; cbn [sent]; [done|].
  destruct (passes M); [by apply prefix_cons | apply prefix_nil].
Qed.

Lemma sent_all (l : list Metric) : forallb passes l = true → sent l = l.
Proof.
  induction l as [|M l IH]; cbn [sent forallb]; [done|].
  intros [-> Hl]%andb_true_iff. by rewrite IH.
Qed.

Lemma sent_app (l k : list Metric) :
  sent (l ++ k) = if forallb passes l then l ++ sent k else sent l.
Proof.
  induction l as [|M l IH]; cbn [sent forallb app]; [done|].
  destruct (passes M); cbn [andb]; [|done].
  rewrite IH. by destruct (forallb passes l).
Qed.


Lemma range_slice_send (s : Stats) (ms : list btrfsMetric) (ch : list Metric) :
  Forall aligned ms →
  range_slice ms (sendMetric namespace s) ch
  = (ch ++ sent (map (emit namespace s) ms),
     if forallb passes (map (emit namespace s) ms) then Done tt else Panic).
Proof.
  intros Hms. revert ch.
  induction Hms as [|m ms Hm _ IH]; intros ch.
  - cbn. by rewrite app_nil_r.
  - cbn [range_slice map sent forallb]. unfold mbind, chan_bind.
    rewrite sendMetric_aligned by done.
    destruct (passes (emit namespace s m)); cbn [andb].
    + rewrite IH. by rewrite <- app_assoc.
    + by rewrite app_nil_r.
Qed.

Lemma foldl_devices (it : list (string * Device)) (metrics : list btrfsMetric) :
  foldl (λ metrics '(n, dev),
           metrics ++
           [ {| name := "device_size";
                desc := "Size of a device that is part of the filesystem.";
                value := float64_of_uint (Size dev);
                extraLabel := ["device"];
                extraLabelValue := [n] |} ])
        metrics it
  = metrics ++ map device_metric it.
Proof.
  revert metrics. induction it as [|[n dev] it IH]; intros metrics; cbn.
  - by rewrite app_nil_r.
  - rewrite IH, <- app_assoc. done.
Qed.

Lemma getLayoutStats_aligned (a l : string) (u : option LayoutUsage) :
  Forall aligned (getLayoutStats a l u).
Proof. destruct u; repeat constructor. Qed.

Lemma getAllocationStats_aligned (a : string) (st : option AllocationStats)
    (ms : list btrfsMetric) :
  getAllocationStats a st = Done ms → Forall aligned ms.
Proof.
  destruct st as [st|]; [|done]. cbn. intros [= <-].
  apply Forall_cons; split; [done|].
  repeat (apply Forall_app; split);
    auto using getLayoutStats_aligned.

Qed.

Lemma emit_getLayoutStats (s : Stats) (c : Category) (l : Layout)
    (u : option LayoutUsage) :
  map (emit namespace s) (getLayoutStats (category_name c) (layout_name l) u)
  = layout_emissions namespace s c l u.
Proof. by destruct u. Qed.

Lemma emit_getAllocationStats (s : Stats) (c : Category) (st : AllocationStats) :
  category_record c (Allocation s) = Some st →
  ∃ ms, getAllocationStats (category_name c) (Some st) = Done ms
        ∧ map (emit namespace s) ms = category_emissions namespace s c.
Proof.
  intros Hst. eexists. split; [reflexivity|].
  unfold category_emissions. rewrite Hst.
  rewrite !map_app.
  rewrite (emit_getLayoutStats s c single), (emit_getLayoutStats s c dup),
    (emit_getLayoutStats s c raid0), (emit_getLayoutStats s c raid1),
    (emit_getLayoutStats s c raid5), (emit_getLayoutStats s c raid6),
    (emit_getLayoutStats s c raid10).
  cbn [flat_map all_layouts layout_record]. rewrite app_nil_r, <- !app_assoc. done.
Qed.

Lemma categories_present_spec (s : Stats) :
  categories_present s = true ↔
  is_Some (Data (Allocation s)) ∧ is_Some (Metadata (Allocation s))
  ∧ is_Some (System (Allocation s)).
Proof.
  unfold categories_present. cbn.
  rewrite !andb_true_iff, !bool_decide_eq_true. tauto.
Qed.

Lemma updateBtrfsStats_run (s : Stats) (it : list (string * Device))
    (ch : list Metric) :
  categories_present s = true →
  updateBtrfsStats namespace (Some s) it ch
  = (ch ++ sent (flatten_spec namespace s it),
     if forallb passes (flatten_spec namespace s it) then Done tt else Panic).
Proof.
  intros (Hd & Hm & Hs)%categories_present_spec.
  destruct Hd as [d Hd], Hm as [m Hm], Hs as [y Hs].
  destruct (emit_getAllocationStats s data d Hd) as (md & Ed & Hmd).
  destruct (emit_getAllocationStats s metadata m Hm) as (mm & Em & Hmm).
  destruct (emit_getAllocationStats s system y Hs) as (ms & Es & Hms).
  unfold updateBtrfsStats. rewrite foldl_devices, Hd, Hm, Hs.
  cbn [category_name] in Ed, Em, Es.
  unfold mbind, chan_bind, lift at 1 2 3. rewrite Ed, Em, Es.
  rewrite range_slice_send.
  - assert (map (emit namespace s)
              (((([ {| name := "device_count";
                       desc := "Number of devices that are part of the filesystem.";
                       value := float64_of_uint (N.of_nat (size (Devices s)));
                       extraLabel := [];
                       extraLabelValue := [] |};
                    {| name := "global_rsv_size_bytes";
                       desc := "Size of global reserve.";
                       value := float64_of_uint (GlobalRsvSize (Allocation s));
                       extraLabel := [];
                       extraLabelValue := [] |} ]
                  ++ map device_metric it) ++ md) ++ mm) ++ ms)
            = flatten_spec namespace s it) as ->; [|done].
    unfold flatten_spec.
    rewrite !map_app. rewrite Hmd, Hmm, Hms.
    cbn [flat_map all_categories]. rewrite app_nil_r, <- !app_assoc.
    rewrite map_map. done.
  - rewrite !Forall_app. repeat split; eauto using getAllocationStats_aligned.
    + repeat constructor.
    + apply Forall_map, Forall_true. intros ?. done.
Qed.

Lemma updateBtrfsStats_absent (s : Stats) (it : list (string * Device))
    (ch : list Metric) :
  categories_present s = false →
  updateBtrfsStats namespace (Some s) it ch = (ch, Panic).
Proof.
  intros Hp. unfold updateBtrfsStats, mbind, chan_bind, lift.
  destruct (Data (Allocation s)) as [d|] eqn:Hd; [|done].
  destruct (Metadata (Allocation s)) as [m|] eqn:Hm; [|done].
  destruct (System (Allocation s)) as [y|] eqn:Hs; [|done].
  assert (categories_present s = true); [|congruence].
  apply categories_present_spec. rewrite Hd, Hm, Hs. eauto.
Qed.

Lemma flatten_run (s : Stats) (it : list (string * Device)) :
  categories_present s = true →
  flatten namespace s it = sent (flatten_spec namespace s it).
Proof. intros Hp. unfold flatten. by rewrite updateBtrfsStats_run. Qed.

Lemma flatten_absent (s : Stats) (it : list (string * Device)) :
  categories_present s = false → flatten namespace s it = [].
Proof. intros Hp. unfold flatten. by rewrite updateBtrfsStats_absent. Qed.

Lemma range_order_length (m : gmap string Device) (it : list (string * Device)) :
  range_order m it → length it = size m.
Proof.
  unfold range_order. intros Hit. rewrite Hit. apply length_map_to_list.
Qed.

Lemma length_layouts (s : Stats) (c : Category) (st : AllocationStats)
    (ls : list Layout) :
  length (flat_map (λ l, layout_emissions namespace s c l (layout_record l st)) ls)
  = 3 * length (filter (λ l, is_Some (layout_record l st)) ls).
Proof.
  induction ls as [|l ls IH]; [done|].
  cbn [flat_map]. rewrite length_app, IH, filter_cons.
  destruct (layout_record l st) as [u|] eqn:Hu.
  - rewrite decide_True by eauto. cbn. lia.
  - rewrite decide_False by (by intros [? ?]). cbn. lia.
Qed.

Lemma length_category (s : Stats) (c : Category) :
  is_Some (category_record c (Allocation s)) →
  length (category_emissions namespace s c)
  = 1 + 3 * present_layouts (category_record c (Allocation s)).
Proof.
  intros [st Hst]. unfold category_emissions, present_layouts. rewrite Hst.
  cbn [length]. by rewrite length_layouts.
Qed.


Lemma flatten_prefix (s : Stats) (it : list (string * Device)) :
  flatten namespace s it `prefix_of` flatten_spec namespace s it.
Proof.
  destruct (categories_present s) eqn:Hp.
  - rewrite flatten_run by done. apply sent_prefix.
  - rewrite flatten_absent by done. apply prefix_nil.
Qed.

Lemma flatten_Forall (P : Metric → Prop) (s : Stats) (it : list (string * Device)) :
  Forall P (flatten_spec namespace s it) → Forall P (flatten namespace s it).
Proof.
  destruct (flatten_prefix s it) as [k ->]. by intros [? _]%Forall_app.
Qed.

Lemma layout_emissions_shape (s : Stats) (it : list (string * Device))
    (c : Category) (l : Layout) (u : option LayoutUsage) :
  Forall (λ M, ∃ n h v extra,
            M = emission namespace s n h v extra ∧ extra_labels it extra)
         (layout_emissions namespace s c l u).
Proof.
  destruct u; repeat constructor;
    do 4 eexists; (split; [reflexivity|]); unfold extra_labels; eauto 10.
Qed.

Lemma category_emissions_shape (s : Stats) (it : list (string * Device))
    (c : Category) :
  Forall (λ M, ∃ n h v extra,
            M = emission namespace s n h v extra ∧ extra_labels it extra)
         (category_emissions namespace s c).
Proof.
  unfold category_emissions. destruct (category_record _ _) as [st|]; [|done].
  constructor.
  - do 4 eexists. split; [reflexivity|]. unfold extra_labels. eauto 10.
  - cbn [flat_map all_layouts].
    repeat (apply Forall_app; split); auto using layout_emissions_shape.
Qed.

Lemma flatten_spec_shape (s : Stats) (it : list (string * Device)) :
  Forall (λ M, ∃ n h v extra,
            M = emission namespace s n h v extra ∧ extra_labels it extra)
         (flatten_spec namespace s it).
Proof.
  unfold flatten_spec.
  apply Forall_app; split; [|apply Forall_app; split].
  - repeat constructor; do 4 eexists; (split; [reflexivity|]);
      unfold extra_labels; eauto.
  - apply Forall_map, Forall_forall. intros d Hd.
    do 4 eexists. split; [reflexivity|]. unfold extra_labels. eauto 10.
  - cbn [flat_map all_categories].
    repeat (apply Forall_app; split); auto using category_emissions_shape.
Qed.

Lemma flatten_shape (s : Stats) (it : list (string * Device)) :
  Forall (λ M, ∃ n h v extra,
            M = emission namespace s n h v extra ∧ extra_labels it extra)
         (flatten namespace s it).
Proof. apply flatten_Forall, flatten_spec_shape. Qed.

Lemma layout_emissions_described (s : Stats) (c : Category) (l : Layout)
    (u : option LayoutUsage) :
  Forall (λ M, valType M = GaugeValue ∧ metricDesc M ∈ descriptors namespace)
         (layout_emissions namespace s c l u).
Proof.
  destruct u; repeat constructor; cbn; unfold descriptors, NewDesc;
    rewrite !elem_of_cons; auto 10.
Qed.

Lemma category_emissions_described (s : Stats) (c : Category) :
  Forall (λ M, valType M = GaugeValue ∧ metricDesc M ∈ descriptors namespace)
         (category_emissions namespace s c).
Proof.
  unfold category_emissions. destruct (category_record _ _) as [st|]; [|done].
  constructor.
  - split; [done|]. cbn. unfold descriptors, NewDesc.
    rewrite !elem_of_cons. auto 10.
  - cbn [flat_map all_layouts].
    repeat (apply Forall_app; split); auto using layout_emissions_described.
Qed.

Lemma flatten_spec_described (s : Stats) (it : list (string * Device)) :
  Forall (λ M, valType M = GaugeValue ∧ metricDesc M ∈ descriptors namespace)
         (flatten_spec namespace s it).
Proof.
  unfold flatten_spec.
  apply Forall_app; split; [|apply Forall_app; split].
  - repeat constructor; cbn; unfold descriptors, NewDesc;
      rewrite !elem_of_cons; auto 10.
  - apply Forall_map, Forall_true. intros d. split; [done|].
    cbn. unfold descriptors, NewDesc. rewrite !elem_of_cons. auto 10.
  - cbn [flat_map all_categories].
    repeat (apply Forall_app; split); auto using category_emissions_described.
Qed.

(** *** Which metrics the library builds *)

Lemma passes_emission (s : Stats) (n h : string) (v : float64)
    (extra : list (string * string)) :
  passes (emission namespace s n h v extra)
  = negb (desc_err (metricDesc (emission namespace s n h v extra)))
    && (utf8.ValidString (Label s)
        && (utf8.ValidString (UUID s) && forallb utf8.ValidString extra.*2)).
Proof.
  unfold passes, validateLabelValues.
  cbn [emission metricDesc labelValues variableLabels].
  rewrite bool_decide_true by (cbn; by rewrite !length_fmap).
  done.
Qed.

Lemma namespace_valid_desc (d : Desc) :
  namespace_valid namespace = true → d ∈ descriptors namespace → desc_err d = false.
Proof.
  unfold namespace_valid. rewrite forallb_forall. intros Hall Hd.
  apply negb_true_iff, Hall. by apply list_elem_of_In.
Qed.

Lemma name_valid (c : Category) (l : Layout) :
  utf8.ValidString (category_name c) = true
  ∧ utf8.ValidString (layout_name l) = true.
Proof. by destruct c, l. Qed.

Lemma extra_labels_valid (it : list (string * Device))
    (extra : list (string * string)) :
  forallb (λ d, utf8.ValidString d.1) it = true →
  extra_labels it extra →
  forallb utf8.ValidString extra.*2 = true.
Proof.
  rewrite forallb_forall. intros Hit.
  intros [->|[(d & Hd & ->)|[[c ->]|(c & l & ->)]]]; cbn [fmap list_fmap snd forallb].
  - done.
  - rewrite (Hit d) by (by apply list_elem_of_In). done.
  - by rewrite (proj1 (name_valid c single)).
  - by rewrite (proj1 (name_valid c l)), (proj2 (name_valid c l)).
Qed.

Lemma passes_head (s : Stats) (it : list (string * Device)) (M1 M2 : Metric) :
  (∃ n h v, M1 = emission namespace s n h v []) →
  forallb passes ([M1; M2] ++ map (device_emission namespace s) it) = true →
  labels_valid s it = true.
Proof.
  intros (n & h & v & ->). rewrite forallb_app.
  intros [H1 H2]%andb_true_iff. cbn [forallb] in H1.
  apply andb_true_iff in H1 as [H1 _]. rewrite passes_emission in H1.
  apply andb_true_iff in H1 as [_ (HL & (HU & _)%andb_true_iff)%andb_true_iff].
  unfold labels_valid. rewrite HL, HU. cbn [andb].
  apply forallb_forall. intros d Hd.
  rewrite forallb_forall in H2.
  specialize (H2 (device_emission namespace s d) (in_map _ _ _ Hd)).
  unfold device_emission in H2. rewrite passes_emission in H2.
  apply andb_true_iff in H2 as [_ (_ & (_ & H2)%andb_true_iff)%andb_true_iff].
  cbn in H2. by apply andb_true_iff in H2 as [H2 _].
Qed.

Lemma passes_flatten_spec (s : Stats) (it : list (string * Device)) :
  namespace_valid namespace = true →
  forallb passes (flatten_spec namespace s it) = labels_valid s it.
Proof.
  intros Hns. apply eq_true_iff_eq. split.
  - unfold flatten_spec. rewrite app_assoc, forallb_app.
    intros [Hhead _]%andb_true_iff. eapply passes_head; [|exact Hhead]. eauto.
  - intros Hv. apply forallb_forall. intros M HM%list_elem_of_In.
    pose proof (flatten_spec_shape s it) as Hshape.
    pose proof (flatten_spec_described s it) as Hdesc.
    rewrite Forall_forall in Hshape, Hdesc.
    destruct (Hdesc M HM) as [_ Hd].
    destruct (Hshape M HM) as (n & h & v & extra & -> & Hex).
    rewrite passes_emission, (namespace_valid_desc _ Hns Hd).
    unfold labels_valid in Hv.
    apply andb_true_iff in Hv as [[-> ->]%andb_true_iff Hit].
    by rewrite (extra_labels_valid it extra).
Qed.

Lemma labels_valid_perm (s : Stats) (it1 it2 : list (string * Device)) :
  it1 ≡ₚ it2 → labels_valid s it1 = labels_valid s it2.
Proof.
  intros Hperm. unfold labels_valid. f_equal.
  apply eq_true_iff_eq. rewrite !forallb_forall.
  split; intros H d Hd; apply H; apply list_elem_of_In; apply list_elem_of_In in Hd.
  - by rewrite Hperm.
  - by rewrite <- Hperm.
Qed.

Lemma updateBtrfsStats_exact (s : Stats) (it : list (string * Device))
    (ch : list Metric) :
  namespace_valid namespace = true →
  categories_present s = true →
  updateBtrfsStats namespace (Some s) it ch
  = (ch ++ flatten namespace s it, if labels_valid s it then Done tt else Panic).
Proof.
  intros Hns Hp.
  by rewrite flatten_run, updateBtrfsStats_run, passes_flatten_spec.
Qed.

Lemma flatten_present (s : Stats) (it : list (string * Device)) :
  namespace_valid namespace = true →
  categories_present s = true →
  labels_valid s it = true →
  flatten namespace s it = flatten_spec namespace s it.
Proof.
  intros Hns Hp Hv. rewrite flatten_run by done.
  apply sent_all. by rewrite passes_flatten_spec.
Qed.

Lemma updateBtrfsStats_present (s : Stats) (it : list (string * Device))
    (ch : list Metric) :
  namespace_valid namespace = true →
  categories_present s = true →
  labels_valid s it = true →
  updateBtrfsStats namespace (Some s) it ch
  = (ch ++ flatten_spec namespace s it, Done tt).
Proof.
  intros Hns Hp Hv.
  by rewrite updateBtrfsStats_exact, flatten_present, Hv.
Qed.

Lemma updateBtrfsStats_frame (s : Stats) (it : list (string * Device))
    (ch : list Metric) :
  updateBtrfsStats namespace (Some s) it ch
  = (ch ++ flatten namespace s it, (updateBtrfsStats namespace (Some s) it []).2).
Proof.
  destruct (categories_present s) eqn:Hp.
  - by rewrite flatten_run, !updateBtrfsStats_run.
  - rewrite flatten_absent, !updateBtrfsStats_absent by done.
    by rewrite app_nil_r.
Qed.


(** With a label value that is not valid, the panic comes before the
    metrics of the categories. *)
Lemma flatten_stops (s : Stats) (it : list (string * Device)) :
  categories_present s = true →
  labels_valid s it = false →
  flatten namespace s it
  `prefix_of`
  [ emission namespace s "device_count"
      "Number of devices that are part of the filesystem."
      (float64_of_uint (N.of_nat (size (Devices s)))) [];
    emission namespace s "global_rsv_size_bytes" "Size of global reserve."
      (float64_of_uint (GlobalRsvSize (Allocation s))) [] ]
  ++ map (device_emission namespace s) it.
Proof.
  intros Hp Hv. rewrite flatten_run by done. unfold flatten_spec.
  rewrite app_assoc, sent_app.
  destruct (forallb passes _) eqn:Hhead; [|apply sent_prefix].
  apply passes_head in Hhead; [congruence | eauto].
Qed.



(** C3, as the code has it.  Two flattenings of the same snapshot, the
    devices being visited in the orders [it1] and [it2] and the label, the
    unique id and the device names being valid UTF-8, emit the same
    metrics up to a permutation, the same first two metrics and the same
    metrics after the device sizes; they emit the same sequence when the
    snapshot has at most one device. *)
Theorem flatten_twice (s : Stats) (it1 it2 : list (string * Device)) :
  namespace_valid namespace = true →
  labels_valid s it1 = true →
  range_order (Devices s) it1 →
  range_order (Devices s) it2 →
  flatten namespace s it1 ≡ₚ flatten namespace s it2
  ∧ take 2 (flatten namespace s it1) = take 2 (flatten namespace s it2)
  ∧ drop (2 + size (Devices s)) (flatten namespace s it1)
    = drop (2 + size (Devices s)) (flatten namespace s it2)
  ∧ ((size (Devices s) ≤ 1)%nat → flatten namespace s it1 = flatten namespace s it2).
Proof.
  intros Hns Hv1 H1 H2.
  assert (it1 ≡ₚ it2) as Hperm by (unfold range_order in *; by rewrite H1, H2).
  assert (labels_valid s it2 = true) as Hv2
    by (by rewrite <- (labels_valid_perm s it1 it2)).
  destruct (categories_present s) eqn:Hp;
    [|by rewrite !flatten_absent by done].
  rewrite !flatten_present by done. unfold flatten_spec.
  pose proof (range_order_length _ _ H1) as L1.
  pose proof (range_order_length _ _ H2) as L2.
  repeat split.
  - by rewrite Hperm.
  - rewrite <- L1 at 1. rewrite <- L2.
    rewrite !(app_assoc _ (map _ _)).
    rewrite !drop_app_length'; [done| |]; by rewrite length_app, length_map.
  - intros Hsz.
    destruct it1 as [|x [|??]], it2 as [|y [|??]]; cbn in L1, L2; try lia; [done|].
    apply Permutation_singleton_r in Hperm. by simplify_eq.
Qed.

Lemma filter_none {A : Type} (P : A → Prop) `{!∀ x, Decision (P x)} (l : list A) :
  Forall (λ x, ¬ P x) l → filter P l = [].
Proof.
  induction 1 as [|x l Hx _ IH]; [done|].
  by rewrite filter_cons, decide_False, IH.
Qed.

Lemma filter_all {A : Type} (P : A → Prop) `{!∀ x, Decision (P x)} (l : list A) :
  Forall P l → filter P l = l.
Proof.
  induction 1 as [|x l Hx _ IH]; [done|].
  by rewrite filter_cons, decide_True, IH.
Qed.

Lemma category_name_inj : Inj (=) (=) category_name.
Proof. intros [] [] H; (done || discriminate H). Qed.

Lemma layout_name_inj : Inj (=) (=) layout_name.
Proof. intros [] [] H; (done || discriminate H). Qed.

Lemma filter_layout (s : Stats) (c c' : Category) (l l' : Layout)
    (u : option LayoutUsage) :
  filter (for_layout c l) (layout_emissions namespace s c' l' u)
  = if decide (c' = c ∧ l' = l) then layout_emissions namespace s c' l' u else [].
Proof.
  destruct (decide (c' = c ∧ l' = l)) as [[-> ->]|Hne].
  - apply filter_all. destruct u; repeat constructor.
  - apply filter_none. destruct u; repeat constructor;
      unfold for_layout; cbn; intros [= Hc%category_name_inj Hl%layout_name_inj];
      by apply Hne.
Qed.

Lemma filter_layouts (s : Stats) (c c' : Category) (l : Layout)
    (st : AllocationStats) :
  filter (for_layout c l)
    (flat_map (λ l', layout_emissions namespace s c' l' (layout_record l' st)) all_layouts)
  = if decide (c' = c) then layout_emissions namespace s c l (layout_record l st) else [].
Proof.
  cbn [flat_map all_layouts]. rewrite !filter_app, !filter_layout, filter_nil.
  destruct (decide (c' = c)) as [->|Hne].
  - destruct l; repeat first [rewrite decide_True by done | rewrite decide_False by (by intros [_ [=]])];
    by rewrite ?app_nil_r.
  - by repeat rewrite decide_False by (by intros [? _]).
Qed.

Lemma filter_category (s : Stats) (c c' : Category) (l : Layout) (st : AllocationStats) :
  category_record c (Allocation s) = Some st →
  is_Some (category_record c' (Allocation s)) →
  filter (for_layout c l) (category_emissions namespace s c')
  = if decide (c' = c) then layout_emissions namespace s c l (layout_record l st) else [].
Proof.
  intros Hst [st' Hst']. unfold category_emissions. rewrite Hst'.
  rewrite filter_cons, decide_False by (by intros [=]).
  rewrite filter_layouts. destruct (decide (c' = c)) as [->|]; [|done].
  by simplify_eq.
Qed.

Lemma filter_layout_spec (s : Stats) (it : list (string * Device))
    (c : Category) (l : Layout) (st : AllocationStats) :
  categories_present s = true →
  category_record c (Allocation s) = Some st →
  filter (for_layout c l) (flatten_spec namespace s it)
  = layout_emissions namespace s c l (layout_record l st).
Proof.
  intros (Hd & Hm & Hs)%categories_present_spec Hst.
  unfold flatten_spec. rewrite !filter_app.
  rewrite (filter_none _ (map _ it))
    by (apply Forall_map, Forall_true; intros d; by intros [=]).
  cbn [flat_map all_categories]. rewrite !filter_app.
  rewrite !(filter_category s c _ l st) by done.
  rewrite !filter_cons, !decide_False by (by intros [=]).
  rewrite filter_nil. cbn [app].
  destruct c; cbn; by rewrite ?app_nil_r.
Qed.

Lemma filter_prefix_nil {A : Type} (P : A → Prop) `{!∀ x, Decision (P x)}
    (l k : list A) :
  l `prefix_of` k → filter P k = [] → filter P l = [].
Proof.
  intros [k' ->]. rewrite filter_app. by intros [? _]%app_eq_nil.
Qed.

(** C4, as the code has it.  For every category [c] and every layout [l],
    the metrics that the flattening emits with the extra labels type =
    name of [c] and mode = name of [l] are none when the category has no
    record for the layout; when it has one they are exactly the used
    bytes, the total bytes and the ratio of that record, in this order,
    if the label, the unique id and the device names of the snapshot are
    valid UTF-8, and none if one of them is not: the library then panics
    before the metrics of the categories. *)
Theorem layout_metrics (s : Stats) (it : list (string * Device))
    (c : Category) (l : Layout) (st : AllocationStats) :
  namespace_valid namespace = true →
  categories_present s = true →
  category_record c (Allocation s) = Some st →
  filter (for_layout c l) (flatten namespace s it)
  = match layout_record l st with
    | None => []
    | Some u =>
        if labels_valid s it
        then
          let extra := [("type", category_name c); ("mode", layout_name l)] in
          [ emission namespace s "used_bytes"
              "Amount of used space by a layout/data type"
              (float64_of_uint (UsedBytes u)) extra;
            emission namespace s "total_bytes"
              "Amount of space allocated for a layout/data type"
              (float64_of_uint (TotalBytes u)) extra;
            emission namespace s "ratio"
              "Data allocation ratio for a layout/data type"
              (Ratio u) extra ]
        else []
    end.
Proof.
  intros Hns Hp Hst. destruct (labels_valid s it) eqn:Hv.
  - rewrite flatten_present, (filter_layout_spec s it c l st) by done.
    by destruct (layout_record l st).
  - rewrite (filter_prefix_nil _ _ _ (flatten_stops s it Hp Hv));
      [by destruct (layout_record l st)|].
    rewrite filter_app, !filter_cons, !decide_False, filter_nil by (by intros [=]).
    apply filter_none, Forall_map, Forall_true. intros d. by intros [=].
Qed.

(** C5.  Whatever metric the sending step puts on the channel has the
    label names label and uuid followed by the extra label names of the
    metric, and the label and the unique id of the snapshot followed by
    its extra label values; so has every metric a snapshot is flattened
    into. *)
Theorem base_labels (s : Stats) (it : list (string * Device)) :
  (∀ (m : btrfsMetric) (ch : list Metric),
     sendMetric namespace s m ch = (ch, Panic)
     ∨ ∃ M, sendMetric namespace s m ch = (ch ++ [M], Done tt)
            ∧ variableLabels (metricDesc M) = ["label"; "uuid"] ++ extraLabel m
            ∧ labelValues M = [Label s; UUID s] ++ extraLabelValue m)
  ∧ Forall (λ M, ∃ extra : list (string * string),
              variableLabels (metricDesc M) = ["label"; "uuid"] ++ extra.*1
              ∧ labelValues M = [Label s; UUID s] ++ extra.*2)
           (flatten namespace s it).
Proof.
  split.
  - intros m ch.
    unfold sendMetric, mbind, chan_bind, lift, send, MustNewConstMetric,
      NewConstMetric.
    destruct (desc_err _); [by left|].
    destruct (validateLabelValues _ _); [|by left].
    right. eexists. split; [reflexivity|].
    split; [done|]. cbn [labelValues].
    destruct (extraLabelValue m); done.
  - eapply Forall_impl; [apply flatten_shape|].
    intros M (n & h & v & extra & -> & _). by exists extra.
Qed.

(** C7.  Every metric a snapshot is flattened into has as many label
    values as label names, and value and name at the same position belong
    together: label and uuid bound to those of the snapshot, then device
    bound to a device name, or type bound to a category name, or type and
    mode bound to a category and a layout name. *)
Theorem labels_aligned (s : Stats) (it : list (string * Device)) :
  Forall (λ M, length (labelValues M) = length (variableLabels (metricDesc M))
               ∧ ∃ extra, extra_labels it extra
                          ∧ labels_of M
                            = [("label", Label s); ("uuid", UUID s)] ++ extra)
         (flatten namespace s it).
Proof.
  eapply Forall_impl; [apply flatten_shape|].
  intros M (n & h & v & extra & -> & Hex). split.
  - cbn. by rewrite !length_fmap.
  - exists extra. split; [done|]. unfold labels_of. cbn.
    do 2 f_equal. by rewrite zip_fst_snd.
Qed.

(** C9.  Flattening a snapshot returns only when its three category
    pointers are not nil, and a nil one makes it panic before anything is
    sent.  The dereference is in [getAllocationStats], which panics on nil
    and on nothing else: with the three pointers not nil its three calls
    return, and the flattening returns with all its metrics sent when the
    label values are valid for the library as well.  A nil layout pointer
    gives no metric and no panic. *)
Theorem category_pointers (s : Stats) (it : list (string * Device))
    (ch : list Metric) :
  ((updateBtrfsStats namespace (Some s) it ch).2 = Done tt →
   is_Some (Data (Allocation s)) ∧ is_Some (Metadata (Allocation s))
   ∧ is_Some (System (Allocation s)))
  ∧ (Data (Allocation s) = None ∨ Metadata (Allocation s) = None
     ∨ System (Allocation s) = None →
     updateBtrfsStats namespace (Some s) it ch = (ch, Panic))
  ∧ (is_Some (Data (Allocation s)) ∧ is_Some (Metadata (Allocation s))
     ∧ is_Some (System (Allocation s)) →
     ∃ d m y,
       getAllocationStats "data" (Data (Allocation s)) = Done d
       ∧ getAllocationStats "metadata" (Metadata (Allocation s)) = Done m
       ∧ getAllocationStats "system" (System (Allocation s)) = Done y)
  ∧ (is_Some (Data (Allocation s)) ∧ is_Some (Metadata (Allocation s))
     ∧ is_Some (System (Allocation s)) →
     namespace_valid namespace = true →
     labels_valid s it = true →
     updateBtrfsStats namespace (Some s) it ch
     = (ch ++ flatten namespace s it, Done tt))
  ∧ (∀ a, getAllocationStats a None = Panic)
  ∧ (∀ a st, getAllocationStats a (Some st) ≠ Panic)
  ∧ (∀ a l, getLayoutStats a l None = []).
Proof.
  assert (Data (Allocation s) = None ∨ Metadata (Allocation s) = None
          ∨ System (Allocation s) = None ↔ categories_present s = false) as Hnil.
  { unfold categories_present. cbn.
    destruct (Data (Allocation s)), (Metadata (Allocation s)),
      (System (Allocation s)); cbn;
      (split; [intros [?|[?|?]]; done | intros ?; try done; auto]). }
  rewrite <- categories_present_spec, Hnil. split_and!; try done.
  - destruct (categories_present s) eqn:Hp; [done|].
    by rewrite updateBtrfsStats_absent.
  - apply updateBtrfsStats_absent.
  - intros (Hd & Hm & Hs)%categories_present_spec.
    destruct Hd as [d ->], Hm as [m ->], Hs as [y ->]. by eexists _, _, _.
  - intros Hp Hns Hv. by rewrite updateBtrfsStats_exact, Hv.
Qed.

End Flattening.

Section Values.

Variable namespace : string.

Lemma carries_integer (s : Stats) (n : N) (nm h : string)
    (extra : list (string * string)) :
  carries (emission namespace s nm h (float64_of_uint n) extra) (inl n).
Proof. split; [done|]. apply float64_of_uint_exact. Qed.

Lemma layout_carries (s : Stats) (c : Category) (l : Layout) (u : option LayoutUsage) :
  Forall2 carries (layout_emissions namespace s c l u) (layout_values u).
Proof. destruct u; repeat constructor; apply float64_of_uint_exact. Qed.

Lemma category_carries (s : Stats) (c : Category) :
  Forall2 carries (category_emissions namespace s c)
    (category_values (category_record c (Allocation s))).
Proof.
  unfold category_emissions, category_values.
  destruct (category_record c (Allocation s)) as [st|]; [|constructor].
  constructor; [apply carries_integer|].
  cbn [flat_map all_layouts].
  repeat (apply Forall2_app; [apply layout_carries|]). constructor.
Qed.

Lemma flatten_spec_carries (s : Stats) (it : list (string * Device)) :
  Forall2 carries (flatten_spec namespace s it) (source_values s it).
Proof.
  unfold flatten_spec, source_values.
  apply Forall2_app; [|apply Forall2_app].
  - repeat constructor; apply float64_of_uint_exact.
  - apply Forall2_fmap, Forall_Forall2_diag, Forall_true.
    intros d. apply carries_integer.
  - cbn [flat_map all_categories].
    repeat (apply Forall2_app; [apply category_carries|]). constructor.
Qed.

(** C10.  Every emitted value is the statistic it comes from: an integer
    statistic converted to a [float64], which below [2 ^ 53] denotes that
    very integer, and a ratio unchanged; the metrics sent carry the
    statistics of the snapshot in their order, all of them when the
    flattening comes to its end.  Above [2 ^ 53] the conversion rounds:
    [2 ^ 53 + 1] becomes [2 ^ 53]. *)
Theorem integer_values (s : Stats) (it : list (string * Device)) :
  Forall2 carries (flatten namespace s it)
    (take (length (flatten namespace s it)) (source_values s it))
  ∧ (namespace_valid namespace = true →
     categories_present s = true →
     labels_valid s it = true →
     Forall2 carries (flatten namespace s it) (source_values s it))
  ∧ float64_of_uint (2 ^ 53 + 1) = float64_of_uint (2 ^ 53)
  ∧ float64_int (float64_of_uint (2 ^ 53 + 1)) = Some (2 ^ 53)%Z.
Proof.
  split_and!; [| |by vm_compute..].
  - pose proof (flatten_spec_carries s it) as Hall.
    destruct (flatten_prefix namespace s it) as [k Hk]. rewrite Hk in Hall.
    apply Forall2_app_inv_l in Hall as (v1 & v2 & H1 & _ & ->).
    by rewrite (Forall2_length _ _ _ H1), take_app_length.
  - intros Hns Hp Hv. rewrite flatten_present by done.
    apply flatten_spec_carries.
Qed.

End Values.

Section Source.

Variable namespace : string.
Variable FS : Type.
Variable NewFS : string → FS * option error.
Variable FS_Stats : FS → list (option Stats) * option error.
Variable sysPath : string.

Lemma rangeStats_present (its : nat → list (string * Device))
    (snaps : list Stats) (i : nat) (ch : list Metric) :
  namespace_valid namespace = true →
  Forall (λ s, categories_present s = true) snaps →
  (∀ k s, snaps !! k = Some s → labels_valid s (its (i + k)) = true) →
  rangeStats namespace its i (Some <$> snaps) ch
  = (ch ++ concat (imap (λ k s, flatten namespace s (its (i + k))) snaps), Done tt).
Proof.
  intros Hns Hs. revert i ch.
  induction Hs as [|s snaps Hp _ IH]; intros i ch Hv.
  - cbn. by rewrite app_nil_r.
  - cbn [fmap list_fmap rangeStats imap concat]. unfold mbind, chan_bind.
    assert (labels_valid s (its i) = true) as Hvs
      by (rewrite <- (Nat.add_0_r i); by apply (Hv 0 s)).
    rewrite updateBtrfsStats_exact, Hvs by done.
    change (rangeStats namespace its (S i) (list_fmap _ _ Some snaps))
      with (rangeStats namespace its (S i) (Some <$> snaps)).
    rewrite IH, <- app_assoc, Nat.add_0_r.
    + do 4 f_equal. apply imap_ext. intros k x _. cbn. do 2 f_equal. lia.
    + intros k s' Hk. replace (S i + k) with (i + S k) by lia.
      by apply (Hv (S k) s').
Qed.

(** C6, as the code has it.  [Update] returns the wrapped error of a
    failed [Stats] call and leaves the channel as it was; after a
    successful call it sends the flattening of every snapshot, in the
    order of the snapshots, and returns no error, when every snapshot has
    its three category records and a label, a unique id and device names
    that are valid UTF-8; and it returns an error in no other case. *)
Theorem Update_result (c : btrfsCollector FS)
    (its : nat → list (string * Device)) (ch : list Metric) :
  (∀ stats e,
     FS_Stats (fs FS c) = (stats, Some e) →
     Update namespace FS FS_Stats c its ch
     = (ch, Done (Some ("failed to retrieve Btrfs stats: " +:+ e))))
  ∧ (∀ snaps,
       FS_Stats (fs FS c) = (Some <$> snaps, None) →
       namespace_valid namespace = true →
       Forall (λ s, categories_present s = true) snaps →
       (∀ i s, snaps !! i = Some s → labels_valid s (its i) = true) →
       Update namespace FS FS_Stats c its ch
       = (ch ++ concat (imap (λ i s, flatten namespace s (its i)) snaps),
          Done None))
  ∧ (∀ ch' e',
       Update namespace FS FS_Stats c its ch = (ch', Done (Some e')) →
       ch' = ch ∧ ∃ stats e, FS_Stats (fs FS c) = (stats, Some e)).
Proof.
  unfold Update. split_and!.
  - intros stats e ->. done.
  - intros snaps -> Hns Hs Hv. unfold mbind, chan_bind.
    by rewrite rangeStats_present.
  - intros ch' e'. destruct (FS_Stats (fs FS c)) as [stats [e|]].
    + intros [= <- _]. eauto.
    + unfold mbind, chan_bind.
      by destruct (rangeStats namespace its 0 stats ch) as [? [[]|]].
Qed.

(** C8.  [NewBtrfsCollector] returns no collector and the wrapped error
    when the handle over the configured path cannot be opened, the
    collector holding the handle and no error when it can, and so an error
    exactly when the opening fails. *)
Theorem NewBtrfsCollector_result :
  (∀ fs e,
     NewFS sysPath = (fs, Some e) →
     NewBtrfsCollector FS NewFS sysPath
     = (None, Some ("failed to open sysfs: " +:+ e)))
  ∧ (∀ fs,
       NewFS sysPath = (fs, None) →
       NewBtrfsCollector FS NewFS sysPath = (Some {| fs := fs |}, None))
  ∧ ((NewBtrfsCollector FS NewFS sysPath).2 ≠ None ↔ (NewFS sysPath).2 ≠ None).
Proof.
  unfold NewBtrfsCollector. split_and!.
  - by intros fs e ->.
  - by intros fs ->.
  - by destruct (NewFS sysPath) as [fs [e|]].
Qed.

End Source.

(** ** Further properties of the collector *)

Section Exposition.

Variable namespace : string.

(** X2.  A nil snapshot, or a snapshot with a nil category, makes
    [updateBtrfsStats] panic with nothing sent, whatever devices it has:
    the metrics of a snapshot are all built before the first one is
    sent. *)
Theorem nil_sends_nothing (o : option Stats) (it : list (string * Device))
    (ch : list Metric) :
  (∀ s, o = Some s → categories_present s = false) →
  updateBtrfsStats namespace o it ch = (ch, Panic).
Proof.
  intros Hnil. destruct o as [s|]; [|done].
  apply updateBtrfsStats_absent, Hnil. done.
Qed.

(** X3.  Every metric a snapshot is flattened into is a gauge of one of
    the seven metric families of the collector, with the name, the help
    text and the label names of that family and no constant label. *)
Theorem flatten_described (s : Stats) (it : list (string * Device)) :
  Forall (λ M, valType M = GaugeValue ∧ metricDesc M ∈ descriptors namespace)
         (flatten namespace s it).
Proof. apply flatten_Forall, flatten_spec_described. Qed.

Lemma present_layouts_le (st : option AllocationStats) : (present_layouts st ≤ 7)%nat.
Proof.
  destruct st as [st|]; cbn [present_layouts]; [|lia].
  etrans; [apply length_filter|]. done.
Qed.

Lemma length_category_le (s : Stats) (c : Category) :
  (length (category_emissions namespace s c) ≤ 22)%nat.
Proof.
  destruct (category_record c (Allocation s)) as [st|] eqn:Hst.
  - rewrite length_category by eauto.
    pose proof (present_layouts_le (category_record c (Allocation s))). lia.
  - unfold category_emissions. rewrite Hst. cbn. lia.
Qed.

(** X4.  A snapshot with n devices is flattened into at most n + 68
    metrics, and into at least n + 5 when it has its three category
    records and its label, unique id and device names are valid UTF-8. *)
Theorem flatten_count_bounds (s : Stats) (it : list (string * Device)) :
  range_order (Devices s) it →
  (length (flatten namespace s it) ≤ size (Devices s) + 68)%nat
  ∧ (namespace_valid namespace = true →
     categories_present s = true →
     labels_valid s it = true →
     (size (Devices s) + 5 ≤ length (flatten namespace s it))%nat).
Proof.
  intros Hit. split.
  - etrans; [apply prefix_length, flatten_prefix|].
    unfold flatten_spec. rewrite !length_app, length_map, (range_order_length _ _ Hit).
    cbn [flat_map all_categories length]. rewrite !length_app. cbn [length].
    pose proof (length_category_le s data).
    pose proof (length_category_le s metadata).
    pose proof (length_category_le s system). lia.
  - intros Hns Hp Hv. rewrite flatten_present by done.
    apply categories_present_spec in Hp as (Hd & Hm & Hs).
    unfold flatten_spec. rewrite !length_app, length_map, (range_order_length _ _ Hit).
    cbn [flat_map all_categories length].
    rewrite !length_app, !(length_category namespace) by done. cbn [length]. lia.
Qed.

Lemma range_order_NoDup (m : gmap string Device) (it : list (string * Device)) :
  range_order m it → NoDup it.*1.
Proof.
  unfold range_order. intros ->. apply NoDup_fst_map_to_list.
Qed.

Lemma range_order_elem_of (m : gmap string Device) (it : list (string * Device))
    (k : string) (d : Device) :
  range_order m it → (k, d) ∈ it ↔ m !! k = Some d.
Proof.
  unfold range_order. intros ->. apply elem_of_map_to_list.
Qed.

Lemma filter_key_absent (it : list (string * Device)) (k : string) :
  k ∉ it.*1 → filter (λ d, d.1 = k) it = [].
Proof.
  intros Hk. apply filter_none, Forall_forall.
  intros [k' d] Hd Heq. cbn in Heq. subst k'. apply Hk.
  apply list_elem_of_fmap. by exists (k, d).
Qed.

Lemma filter_key_present (it : list (string * Device)) (k : string) (d : Device) :
  NoDup it.*1 → (k, d) ∈ it → filter (λ d, d.1 = k) it = [(k, d)].
Proof.
  induction it as [|[k' d'] it IH]; cbn [fmap list_fmap fst].
  - by intros _ ?%elem_of_nil.
  - intros [Hk' Hnd]%NoDup_cons [Heq|Hin]%elem_of_cons.
    + simplify_eq. rewrite filter_cons, decide_True by done.
      by rewrite filter_key_absent.
    + assert (k' ≠ k) as Hne.
      { intros ->. apply Hk'. apply list_elem_of_fmap. by exists (k, d). }
      rewrite filter_cons, decide_False by done. by apply IH.
Qed.

Lemma filter_for_device_devices (s : Stats) (it : list (string * Device)) (k : string) :
  filter (for_device k) (map (device_emission namespace s) it)
  = map (device_emission namespace s) (filter (λ d, d.1 = k) it).
Proof.
  induction it as [|d it IH]; [done|].
  cbn [map]. rewrite !filter_cons, IH.
  destruct (decide (d.1 = k)) as [Hd|Hd].
  - rewrite decide_True; [done|]. unfold for_device. cbn. by rewrite Hd.
  - rewrite decide_False; [done|]. unfold for_device. cbn. by intros [=].
Qed.

Lemma filter_for_device_category (s : Stats) (c : Category) (k : string) :
  filter (for_device k) (category_emissions namespace s c) = [].
Proof.
  apply filter_none.
  eapply Forall_impl; [apply (category_emissions_shape namespace s [])|].
  intros M (n & h & v & extra & -> & Hex). unfold for_device, labels_of. cbn.
  rewrite zip_fst_snd.
  destruct Hex as [->|[(d & Hd & _)|[[c' ->]|(c' & l' & ->)]]];
    [by intros [=] | by apply elem_of_nil in Hd | by intros [=] | by intros [=]].
Qed.

(** X5.  When the flattening comes to its end, the device size metrics are
    those of the entries of the map of devices: for every name, the
    flattening emits the size of the device of that name in the map,
    once, and no metric for a name the map does not have. *)
Theorem device_metric_lookup (s : Stats) (it : list (string * Device)) (k : string) :
  namespace_valid namespace = true →
  categories_present s = true →
  labels_valid s it = true →
  range_order (Devices s) it →
  filter (for_device k) (flatten namespace s it)
  = match Devices s !! k with
    | Some d =>
        [ emission namespace s "device_size"
            "Size of a device that is part of the filesystem."
            (float64_of_uint (Size d)) [("device", k)] ]
    | None => []
    end.
Proof.
  intros Hns Hp Hv Hit. rewrite flatten_present by done. unfold flatten_spec.
  rewrite !filter_app, filter_for_device_devices.
  rewrite !filter_cons, !decide_False, filter_nil by (by intros [=]).
  cbn [flat_map all_categories]. rewrite !filter_app, !filter_for_device_category.
  rewrite filter_nil, !app_nil_r. cbn [app].
  destruct (Devices s !! k) as [d|] eqn:Hk.
  - rewrite (filter_key_present it k d); [done| |].
    + by eapply range_order_NoDup.
    + by apply (range_order_elem_of (Devices s)).
  - rewrite filter_key_absent; [done|].
    intros ([k' d] & ? & Hd)%list_elem_of_fmap; simplify_eq/=.
    apply (range_order_elem_of (Devices s)) in Hd; [|done]. congruence.
Qed.

Lemma filter_about_device_category (s : Stats) (c : Category) :
  filter about_device (category_emissions namespace s c) = [].
Proof.
  apply filter_none.
  eapply Forall_impl; [apply (category_emissions_shape namespace s [])|].
  intros M (n & h & v & extra & -> & Hex). unfold about_device. cbn.
  destruct Hex as [->|[(d & Hd & _)|[[c' ->]|(c' & l' & ->)]]];
    [by intros [=] | by apply elem_of_nil in Hd | by intros [=] | by intros [=]].
Qed.

(** X6.  When the flattening comes to its end, the device count a
    snapshot is flattened into is the number of device size metrics that
    follow it. *)
Theorem device_count_agrees (s : Stats) (it : list (string * Device)) :
  namespace_valid namespace = true →
  categories_present s = true →
  labels_valid s it = true →
  range_order (Devices s) it →
  val <$> flatten namespace s it !! 0
  = Some (float64_of_uint
            (N.of_nat (length (filter about_device (flatten namespace s it))))).
Proof.
  intros Hns Hp Hv Hit. rewrite flatten_present by done. unfold flatten_spec.
  rewrite !filter_app.
  rewrite !filter_cons, !decide_False, filter_nil by (by intros [=]).
  cbn [flat_map all_categories]. rewrite !filter_app, !filter_about_device_category.
  rewrite filter_nil, !app_nil_r. cbn [app].
  rewrite filter_all by (apply Forall_map, Forall_true; by intros d).
  rewrite length_map, (range_order_length _ _ Hit). done.
Qed.

Lemma BuildFQName_inj (subsystem : string) :
  subsystem ≠ "" → Inj (=) (=) (BuildFQName namespace subsystem).
Proof.
  intros Hsub n1 n2. unfold BuildFQName.
  rewrite (bool_decide_true (subsystem ≠ "")) by done.
  assert (∀ p n : string, p +:+ "_" +:+ n ≠ "") as Hne.
  { intros p n. destruct p; discriminate. }
  repeat case_bool_decide; cbn [andb]; subst; try done; intros Heq.
  all: try (by symmetry in Heq; apply Hne in Heq).
  all: try (by apply Hne in Heq).
  all: repeat apply String.app_inj in Heq; try done.
Qed.

Lemma series_of_key_inj (s : Stats) : Inj (=) (=) (series_of_key namespace s).
Proof.
  intros [n1 v1] [n2 v2]. unfold series_of_key. cbn.
  intros [= Hn ->]. by apply (BuildFQName_inj "btrfs") in Hn as ->.
Qed.

Lemma layout_series (s : Stats) (c : Category) (l : Layout) (u : option LayoutUsage) :
  series <$> layout_emissions namespace s c l u
  `sublist_of` series_of_key namespace s <$> layout_keys c l.
Proof. destruct u; [reflexivity | apply sublist_nil_l]. Qed.

Lemma category_series (s : Stats) (c : Category) :
  series <$> category_emissions namespace s c
  `sublist_of` series_of_key namespace s <$> category_keys c.
Proof.
  unfold category_emissions, category_keys.
  destruct (category_record c (Allocation s)) as [st|]; [|apply sublist_nil_l].
  cbn [fmap list_fmap]. apply sublist_skip.
  cbn [flat_map all_layouts]. rewrite !fmap_app.
  repeat (apply sublist_app; [apply layout_series|]). done.
Qed.

Lemma flatten_spec_series (s : Stats) (it : list (string * Device)) :
  series <$> flatten_spec namespace s it
  `sublist_of` series_of_key namespace s
               <$> (snapshot_keys ++ (device_key <$> it)
                    ++ flat_map category_keys all_categories).
Proof.
  unfold flatten_spec. rewrite !fmap_app.
  apply sublist_app; [reflexivity|]. apply sublist_app.
  - rewrite <- !list_fmap_compose. reflexivity.
  - cbn [flat_map all_categories]. rewrite !fmap_app.
    repeat (apply sublist_app; [apply category_series|]). done.
Qed.

Ltac by_decide := apply (bool_decide_unpack _); vm_compute; exact I.

Lemma keys_NoDup (it : list (string * Device)) :
  NoDup it.*1 →
  NoDup (snapshot_keys ++ (device_key <$> it) ++ flat_map category_keys all_categories).
Proof.
  intros Hit.
  assert (∀ x, x ∈ device_key <$> it → x.1 = "device_size") as Hdev.
  { intros x (d & -> & _)%list_elem_of_fmap. done. }
  apply NoDup_app. split_and!.
  - by_decide.
  - intros x Hx [Hd|Hc]%elem_of_app.
    + apply Hdev in Hd. revert x Hx Hd.
      apply (Forall_forall (λ x, x.1 ≠ "device_size")). by_decide.
    + revert x Hx Hc.
      apply (Forall_forall (λ x, x ∉ flat_map category_keys all_categories)).
      by_decide.
  - apply NoDup_app. split_and!.
    + replace (device_key <$> it)
        with ((λ k : string, ("device_size", [k])) <$> it.*1)
        by (by rewrite <- list_fmap_compose).
      apply NoDup_fmap_2; [|done]. by intros k1 k2 [= ->].
    + intros x Hd%Hdev Hc. revert x Hc Hd.
      apply (Forall_forall (λ x, x.1 ≠ "device_size")). by_decide.
    + by_decide.
Qed.

Lemma flatten_spec_series_NoDup (s : Stats) (it : list (string * Device)) :
  NoDup it.*1 → NoDup (series <$> flatten_spec namespace s it).
Proof.
  intros Hit. eapply sublist_NoDup; [|apply flatten_spec_series].
  apply NoDup_fmap_2; [apply series_of_key_inj|]. by apply keys_NoDup.
Qed.

Lemma flatten_series_sublist (s : Stats) (it : list (string * Device)) :
  series <$> flatten namespace s it
  `sublist_of` series <$> flatten_spec namespace s it.
Proof.
  destruct (flatten_prefix namespace s it) as [k ->].
  rewrite fmap_app. apply sublist_inserts_r. reflexivity.
Qed.

(** X7.  No two metrics a snapshot is flattened into have the same name
    and the same label values: a scrape never holds the same series
    twice. *)
Theorem flatten_series_NoDup (s : Stats) (it : list (string * Device)) :
  range_order (Devices s) it →
  NoDup (series <$> flatten namespace s it).
Proof.
  intros Hit. eapply sublist_NoDup; [|apply flatten_series_sublist].
  apply flatten_spec_series_NoDup. by eapply range_order_NoDup.
Qed.

End Exposition.

Section Scrape.

Variable namespace : string.
Variable FS : Type.
Variable FS_Stats : FS → list (option Stats) * option error.

Lemma rangeStats_frame (its : nat → list (string * Device)) (i : nat)
    (stats : list (option Stats)) (ch : list Metric) :
  rangeStats namespace its i stats ch
  = (ch ++ (rangeStats namespace its i stats []).1,
     (rangeStats namespace its i stats []).2).
Proof.
  revert i ch. induction stats as [|[s|] stats IH]; intros i ch;
    cbn [rangeStats].
  - cbn. by rewrite app_nil_r.
  - unfold mbind, chan_bind.
    rewrite (updateBtrfsStats_frame namespace s (its i) ch),
      (updateBtrfsStats_frame namespace s (its i) []).
    destruct ((updateBtrfsStats namespace (Some s) (its i) []).2) as [[]|].
    + rewrite (IH (S i) (ch ++ _)), (IH (S i) ([] ++ _)).
      cbn [fst snd]. by rewrite <- app_assoc.
    + done.
  - cbn. by rewrite app_nil_r.
Qed.

(** What the loop sends is the flattenings of an initial part of the
    snapshots. *)
Lemma rangeStats_sent (its : nat → list (string * Device)) (i : nat)
    (stats : list (option Stats)) :
  ∃ l : list Stats,
    Some <$> l `prefix_of` stats
    ∧ (rangeStats namespace its i stats []).1
      = concat (imap (λ k s, flatten namespace s (its (i + k))) l).
Proof.
  revert i. induction stats as [|[s|] stats IH]; intros i; cbn [rangeStats].
  - exists []. done.
  - unfold mbind, chan_bind.
    rewrite (updateBtrfsStats_frame namespace s (its i) []).
    destruct ((updateBtrfsStats namespace (Some s) (its i) []).2) as [[]|].
    + destruct (IH (S i)) as (l & Hl & Hsent). exists (s :: l). split.
      * by apply prefix_cons.
      * rewrite rangeStats_frame, Hsent. cbn [fst imap concat app].
        rewrite Nat.add_0_r. f_equal. f_equal.
        apply imap_ext. intros k x _. cbn. do 2 f_equal. lia.
    + exists [s]. split.
      * apply prefix_cons, prefix_nil.
      * cbn. by rewrite Nat.add_0_r, app_nil_r.
  - exists []. split; [apply prefix_nil | done].
Qed.

Lemma prefix_Some_lookup (l : list Stats) (stats : list (option Stats))
    (k : nat) (s : Stats) :
  Some <$> l `prefix_of` stats → l !! k = Some s → stats !! k = Some (Some s).
Proof.
  intros Hpre Hk. eapply prefix_lookup_Some; [|done].
  by rewrite list_lookup_fmap, Hk.
Qed.

Lemma prefix_Some_sublist (l : list Stats) (stats : list (option Stats)) :
  Some <$> l `prefix_of` stats → l `sublist_of` omap id stats.
Proof.
  intros [k ->]. rewrite omap_app.
  replace (omap id (Some <$> l)) with l.
  - apply sublist_inserts_r. reflexivity.
  - induction l as [|s l IH]; [done|]. cbn. by rewrite <- IH.
Qed.

Lemma all_complete_spec (its : nat → list (string * Device)) (i : nat)
    (stats : list (option Stats)) :
  all_complete its i stats = true
  ↔ ∀ k o, stats !! k = Some o →
           ∃ s, o = Some s ∧ categories_present s = true
                ∧ labels_valid s (its (i + k)) = true.
Proof.
  revert i. induction stats as [|[s|] stats IH]; intros i; cbn [all_complete].
  - split; [by intros _ k o ?|done].
  - rewrite andb_true_iff, IH. unfold completes. rewrite andb_true_iff. split.
    + intros [[Hp Hv] Hrest] [|k] o; cbn.
      * intros [= <-]. exists s. by rewrite Nat.add_0_r.
      * intros Hk. replace (i + S k) with (S i + k) by lia. by apply Hrest.
    + intros Hall. split.
      * destruct (Hall 0 (Some s) eq_refl) as (s' & [= <-] & Hp & Hv).
        by rewrite Nat.add_0_r in Hv.
      * intros k o Hk. replace (S i + k) with (i + S k) by lia.
        by apply (Hall (S k) o).
  - split; [done|]. intros Hall.
    by destruct (Hall 0 None eq_refl) as (s' & [=] & _).
Qed.

Lemma rangeStats_exact (its : nat → list (string * Device)) (i : nat)
    (stats : list (option Stats)) (ch : list Metric) :
  namespace_valid namespace = true →
  rangeStats namespace its i stats ch
  = (ch ++ concat (imap (λ k s, flatten namespace s (its (i + k)))
                        (attempted its i stats)),
     if all_complete its i stats then Done tt else Panic).
Proof.
  intros Hns. revert i ch. induction stats as [|[s|] stats IH]; intros i ch;
    cbn [rangeStats attempted all_complete].
  - cbn. by rewrite app_nil_r.
  - unfold mbind, chan_bind, completes.
    destruct (categories_present s) eqn:Hp; cbn [andb].
    + rewrite updateBtrfsStats_exact by done.
      destruct (labels_valid s (its i)) eqn:Hv; cbn [andb].
      * rewrite IH. cbn [imap concat]. rewrite <- app_assoc, Nat.add_0_r.
        do 4 f_equal. apply imap_ext. intros k x _. cbn. do 2 f_equal. lia.
      * cbn. by rewrite Nat.add_0_r, app_nil_r.
    + rewrite updateBtrfsStats_absent by done. cbn.
      by rewrite Nat.add_0_r, flatten_absent, app_nil_r.
  - cbn. by rewrite app_nil_r.
Qed.

(** X8.  After a successful [Stats] call, [Update] sends the flattenings of
    the snapshots it takes up, in their order: all the snapshots when each
    of them has its three category records and valid label values, and
    then it returns no error; otherwise those up to the first nil one or
    the first one whose flattening panics, and it panics, the metrics of
    the earlier snapshots having been sent. *)
Theorem Update_progress (c : btrfsCollector FS)
    (its : nat → list (string * Device)) (ch : list Metric)
    (stats : list (option Stats)) :
  namespace_valid namespace = true →
  FS_Stats (fs FS c) = (stats, None) →
  Update namespace FS FS_Stats c its ch
  = (ch ++ concat (imap (λ i s, flatten namespace s (its i)) (attempted its 0 stats)),
     if all_complete its 0 stats then Done None else Panic).
Proof.
  intros Hns Hstats. unfold Update. rewrite Hstats. unfold mbind, chan_bind.
  rewrite rangeStats_exact by done. by destruct (all_complete its 0 stats).
Qed.

(** X9.  [Update] returns without an error exactly when the [Stats] call
    succeeds and every snapshot it answers is not nil, has its three
    category records and has a label, a unique id and device names that
    are valid UTF-8. *)
Theorem Update_returns_nil (c : btrfsCollector FS)
    (its : nat → list (string * Device)) (ch : list Metric) :
  namespace_valid namespace = true →
  (Update namespace FS FS_Stats c its ch).2 = Done None
  ↔ (FS_Stats (fs FS c)).2 = None
    ∧ ∀ i o, (FS_Stats (fs FS c)).1 !! i = Some o →
             ∃ s, o = Some s ∧ categories_present s = true
                  ∧ labels_valid s (its i) = true.
Proof.
  intros Hns.
  rewrite <- (all_complete_spec its 0 (FS_Stats (fs FS c)).1). unfold Update.
  destruct (FS_Stats (fs FS c)) as [stats [e|]]; cbn [fst snd].
  - split; [done | by intros [? _]].
  - unfold mbind, chan_bind. rewrite rangeStats_exact by done.
    destruct (all_complete its 0 stats); cbn; split; try done; by intros [_ ?].
Qed.

(** X10.  What [Update] does to the channel does not depend on what the
    channel holds: it appends to it what it sends on an empty channel, and
    returns or panics as it does on an empty channel. *)
Theorem Update_frame (c : btrfsCollector FS)
    (its : nat → list (string * Device)) (ch : list Metric) :
  Update namespace FS FS_Stats c its ch
  = (ch ++ (Update namespace FS FS_Stats c its []).1,
     (Update namespace FS FS_Stats c its []).2).
Proof.
  unfold Update. destruct (FS_Stats (fs FS c)) as [stats [e|]].
  - cbn. by rewrite app_nil_r.
  - unfold mbind, chan_bind.
    rewrite (rangeStats_frame its 0 stats ch), (rangeStats_frame its 0 stats []).
    by destruct ((rangeStats namespace its 0 stats []).2).
Qed.

(** X11.  Every metric [Update] sends bears the label and the unique id of
    one of the snapshots that the [Stats] call answered. *)
Theorem Update_labels (c : btrfsCollector FS)
    (its : nat → list (string * Device)) :
  Forall (λ M, ∃ s, Some s ∈ (FS_Stats (fs FS c)).1
                    ∧ take 2 (labels_of M) = [("label", Label s); ("uuid", UUID s)])
         (Update namespace FS FS_Stats c its []).1.
Proof.
  unfold Update. destruct (FS_Stats (fs FS c)) as [stats [e|]]; [constructor|].
  unfold mbind, chan_bind. cbn [fst].
  destruct (rangeStats_sent its 0 stats) as (l & Hl & Hsent).
  assert (Forall (λ M, ∃ s, Some s ∈ stats
                    ∧ take 2 (labels_of M) = [("label", Label s); ("uuid", UUID s)])
            (rangeStats namespace its 0 stats []).1) as Hall.
  { rewrite Hsent. apply Forall_concat, Forall_forall.
    intros l' (k & s & -> & Hs)%elem_of_lookup_imap.
    apply (prefix_Some_lookup _ _ _ _ Hl), list_elem_of_lookup_2 in Hs.
    eapply Forall_impl; [apply flatten_shape|].
    intros M (n & h & v & extra & -> & _). exists s. split; [done|].
    unfold labels_of. cbn. done. }
  by destruct (rangeStats namespace its 0 stats []) as [? [[]|]].
Qed.

Lemma completes_perm (s : Stats) (it1 it2 : list (string * Device)) :
  it1 ≡ₚ it2 → completes s it1 = completes s it2.
Proof. intros Hperm. unfold completes. by rewrite (labels_valid_perm s it1 it2). Qed.

Lemma flatten_perm (s : Stats) (it1 it2 : list (string * Device)) :
  namespace_valid namespace = true →
  labels_valid s it1 = true →
  it1 ≡ₚ it2 → flatten namespace s it1 ≡ₚ flatten namespace s it2.
Proof.
  intros Hns Hv1 Hperm.
  assert (labels_valid s it2 = true) as Hv2
    by (by rewrite <- (labels_valid_perm s it1 it2)).
  destruct (categories_present s) eqn:Hp;
    [|by rewrite !flatten_absent by done].
  rewrite !flatten_present by done. unfold flatten_spec. by rewrite Hperm.
Qed.

Lemma scrape_perm (its1 its2 : nat → list (string * Device)) (i : nat)
    (stats : list (option Stats)) :
  namespace_valid namespace = true →
  (∀ k s, stats !! k = Some (Some s) →
          labels_valid s (its1 (i + k)) = true ∧ its1 (i + k) ≡ₚ its2 (i + k)) →
  concat (imap (λ k s, flatten namespace s (its1 (i + k))) (attempted its1 i stats))
  ≡ₚ concat (imap (λ k s, flatten namespace s (its2 (i + k))) (attempted its2 i stats))
  ∧ all_complete its1 i stats = all_complete its2 i stats.
Proof.
  intros Hns. revert i. induction stats as [|[s|] stats IH]; intros i Hit;
    cbn [attempted all_complete]; [done| |done].
  destruct (Hit 0 s eq_refl) as [Hv Hperm]. rewrite Nat.add_0_r in Hv, Hperm.
  rewrite <- (completes_perm s _ _ Hperm).
  destruct (IH (S i)) as [IH1 IH2].
  { intros k s' Hk. replace (S i + k) with (i + S k) by lia. by apply (Hit (S k) s'). }
  destruct (completes s (its1 i)); cbn [andb imap concat].
  - split; [|done]. rewrite !Nat.add_0_r. apply Permutation_app.
    + by apply flatten_perm.
    + rewrite (imap_ext _ (λ k s, flatten namespace s (its1 (S i + k)))),
        (imap_ext (_ ∘ S) (λ k s, flatten namespace s (its2 (S i + k)))); [done| |];
        intros k x _; cbn; do 2 f_equal; lia.
  - split; [|done]. rewrite !Nat.add_0_r, !app_nil_r. by apply flatten_perm.
Qed.

(** X12.  When the label values of the snapshots are valid, the order in
    which the devices of the snapshots are visited changes neither whether
    [Update] returns or panics nor which metrics it sends, only their
    order: two runs over the same answer of [Stats] send permutations of
    one another. *)
Theorem Update_visits (c : btrfsCollector FS)
    (its1 its2 : nat → list (string * Device)) (ch : list Metric) :
  namespace_valid namespace = true →
  (∀ i s, (FS_Stats (fs FS c)).1 !! i = Some (Some s) →
          labels_valid s (its1 i) = true
          ∧ range_order (Devices s) (its1 i) ∧ range_order (Devices s) (its2 i)) →
  (Update namespace FS FS_Stats c its1 ch).1 ≡ₚ (Update namespace FS FS_Stats c its2 ch).1
  ∧ (Update namespace FS FS_Stats c its1 ch).2 = (Update namespace FS FS_Stats c its2 ch).2.
Proof.
  intros Hns. unfold Update.
  destruct (FS_Stats (fs FS c)) as [stats [e|]]; cbn [fst snd]; [done|].
  intros Hit. unfold mbind, chan_bind. rewrite !rangeStats_exact by done.
  destruct (scrape_perm its1 its2 0 stats Hns) as [Hperm Hall].
  { intros k s Hk. destruct (Hit k s Hk) as (Hv & H1 & H2).
    split; [done|]. unfold range_order in H1, H2. cbn. by rewrite H1, H2. }
  rewrite Hall.
  destruct (all_complete its2 0 stats); (split; [by apply Permutation_app_head | done]).
Qed.

Lemma flatten_volume (s : Stats) (it : list (string * Device)) (x : string * list string) :
  x ∈ series <$> flatten namespace s it → take 2 x.2 = [Label s; UUID s].
Proof.
  intros (M & -> & HM)%list_elem_of_fmap.
  pose proof (flatten_shape namespace s it) as Hshape.
  rewrite Forall_forall in Hshape.
  by destruct (Hshape M HM) as (n & h & v & extra & -> & _).
Qed.

Lemma elem_of_concat {A : Type} (x : A) (ls : list (list A)) :
  x ∈ concat ls ↔ ∃ l, l ∈ ls ∧ x ∈ l.
Proof.
  induction ls as [|l ls IH]; cbn [concat].
  - split; [by intros ?%elem_of_nil | by intros (l & ?%elem_of_nil & _)].
  - rewrite elem_of_app, IH. split.
    + intros [Hx | (l' & Hl' & Hx)]; [exists l | exists l'];
        (split; [|done]); [left | by right].
    + intros (l' & [->|Hl']%elem_of_cons & Hx); [by left | right; eauto].
Qed.

Lemma scrape_series_NoDup (its : nat → list (string * Device)) (l : list Stats) (i : nat) :
  (∀ k s, l !! k = Some s → range_order (Devices s) (its (i + k))) →
  NoDup ((λ s, (Label s, UUID s)) <$> l) →
  NoDup (series <$> concat (imap (λ k s, flatten namespace s (its (i + k))) l)).
Proof.
  revert i. induction l as [|s l IH]; intros i Hit Hnd; [constructor|].
  cbn [imap concat]. rewrite fmap_app.
  apply NoDup_cons in Hnd as [Hs Hnd].
  rewrite (imap_ext _ (λ k s, flatten namespace s (its (S i + k))) l)
    by (intros k x _; cbn; do 2 f_equal; lia).
  apply NoDup_app. split_and!.
  - eapply sublist_NoDup; [|apply flatten_series_sublist].
    apply flatten_spec_series_NoDup.
    eapply range_order_NoDup, (Hit 0 s). done.
  - intros x Hx%flatten_volume
      (M & -> & (l' & (k & s' & -> & Hs')%elem_of_lookup_imap & HM)%elem_of_concat)%list_elem_of_fmap.
    assert (series M ∈ series <$> flatten namespace s' (its (S i + k))) as HM'
      by (by apply list_elem_of_fmap_2).
    apply flatten_volume in HM'. rewrite Hx in HM'. injection HM' as HL HU.
    apply Hs, list_elem_of_fmap. exists s'. split; [by rewrite HL, HU|].
    by eapply list_elem_of_lookup_2.
  - apply IH; [|done]. intros k s' Hk. replace (S i + k) with (i + S k) by lia.
    by apply (Hit (S k) s').
Qed.

(** X13.  When the snapshots that [Stats] answers differ pairwise in label
    or unique id, and the devices of each are visited in a possible order,
    no two metrics that [Update] sends have the same name and the same
    label values. *)
Theorem Update_series_NoDup (c : btrfsCollector FS)
    (its : nat → list (string * Device)) :
  (∀ i s, (FS_Stats (fs FS c)).1 !! i = Some (Some s) →
          range_order (Devices s) (its i)) →
  NoDup ((λ s, (Label s, UUID s)) <$> omap id (FS_Stats (fs FS c)).1) →
  NoDup (series <$> (Update namespace FS FS_Stats c its []).1).
Proof.
  unfold Update. destruct (FS_Stats (fs FS c)) as [stats [e|]]; cbn [fst snd];
    [constructor|].
  intros Hit Hnd. unfold mbind, chan_bind.
  destruct (rangeStats_sent its 0 stats) as (l & Hl & Hsent).
  assert (NoDup (series <$> (rangeStats namespace its 0 stats []).1)) as Hall.
  { rewrite Hsent. apply scrape_series_NoDup.
    - intros k s Hk. cbn. eapply Hit, prefix_Some_lookup; done.
    - eapply sublist_NoDup; [|apply fmap_sublist, prefix_Some_sublist, Hl]. done. }
  by destruct (rangeStats namespace its 0 stats []) as [? [[]|]].
Qed.

End Scrape.

(** ** The theorems at the sample snapshots *)

Lemma range_order_vol1 : range_order (Devices vol1) [sda].
Proof. unfold range_order. vm_compute. reflexivity. Qed.

Lemma range_order_vol2 : range_order (Devices vol2) [sda; sdb].
Proof. unfold range_order. vm_compute. reflexivity. Qed.

Lemma range_order_vol2_swapped : range_order (Devices vol2) [sdb; sda].
Proof. unfold range_order. vm_compute. apply perm_swap. Qed.

Lemma range_order_vol_odd : range_order (Devices vol_odd) [sdx; sda].
Proof. unfold range_order. vm_compute. reflexivity. Qed.

Lemma range_order_vol_odd_swapped : range_order (Devices vol_odd) [sda; sdx].
Proof. unfold range_order. vm_compute. apply perm_swap. Qed.

(** The example of section 8 of the specification: nine metrics, in this
    order. *)
Example flatten_vol1 :
  map (λ M, (fqName (metricDesc M), labels_of M, val M)) (flatten "node" vol1 [sda])
  = [ ("node_btrfs_device_count",
       [("label", "vol1"); ("uuid", "abc")], float64_of_uint 1);
      ("node_btrfs_global_rsv_size_bytes",
       [("label", "vol1"); ("uuid", "abc")], float64_of_uint 50);
      ("node_btrfs_device_size",
       [("label", "vol1"); ("uuid", "abc"); ("device", "sda")], float64_of_uint 100);
      ("node_btrfs_reserved_bytes",
       [("label", "vol1"); ("uuid", "abc"); ("type", "data")], float64_of_uint 10);
      ("node_btrfs_used_bytes",
       [("label", "vol1"); ("uuid", "abc"); ("type", "data"); ("mode", "single")],
       float64_of_uint 5);
      ("node_btrfs_total_bytes",
       [("label", "vol1"); ("uuid", "abc"); ("type", "data"); ("mode", "single")],
       float64_of_uint 20);
      ("node_btrfs_ratio",
       [("label", "vol1"); ("uuid", "abc"); ("type", "data"); ("mode", "single")],
       quarter);
      ("node_btrfs_reserved_bytes",
       [("label", "vol1"); ("uuid", "abc"); ("type", "metadata")], float64_of_uint 0);
      ("node_btrfs_reserved_bytes",
       [("label", "vol1"); ("uuid", "abc"); ("type", "system")], float64_of_uint 0) ].
Proof. vm_compute. reflexivity. Qed.

(** The count of section 8: two devices and two layouts give 13 metrics. *)
Example flatten_vol2_count : length (flatten "node" vol2 [sda; sdb]) = 13.
Proof. vm_compute. reflexivity. Qed.

(** A label that is not valid UTF-8: the library panics at the first
    metric, and nothing is sent. *)
Example flatten_vol_bad :
  updateBtrfsStats "node" (Some vol_bad) [sda] [] = ([], Panic).
Proof. vm_compute. reflexivity. Qed.

(** A device name that is not valid UTF-8: the metrics before the one of
    that device are sent, three in one visit of the devices and two in the
    other. *)
Example flatten_vol_odd :
  length (flatten "node" vol_odd [sda; sdx]) = 3
  ∧ length (flatten "node" vol_odd [sdx; sda]) = 2.
Proof. split; vm_compute; reflexivity. Qed.





Lemma flatten_twice_witness :
  namespace_valid "node" = true
  ∧ labels_valid vol2 [sda; sdb] = true
  ∧ range_order (Devices vol2) [sda; sdb]
  ∧ range_order (Devices vol2) [sdb; sda]
  ∧ flatten "node" vol2 [sda; sdb] ≡ₚ flatten "node" vol2 [sdb; sda]
  ∧ take 2 (flatten "node" vol2 [sda; sdb]) = take 2 (flatten "node" vol2 [sdb; sda])
  ∧ drop (2 + size (Devices vol2)) (flatten "node" vol2 [sda; sdb])
    = drop (2 + size (Devices vol2)) (flatten "node" vol2 [sdb; sda])
  ∧ ((size (Devices vol2) ≤ 1)%nat →
     flatten "node" vol2 [sda; sdb] = flatten "node" vol2 [sdb; sda]).
Proof.
  split; [reflexivity|]. split; [reflexivity|].
  split; [exact range_order_vol2|]. split; [exact range_order_vol2_swapped|].
  apply (flatten_twice "node" vol2 [sda; sdb] [sdb; sda]);
    [reflexivity | reflexivity | exact range_order_vol2 | exact range_order_vol2_swapped].
Defined.

(** C3, as the specification words it, fails: two flattenings of the same
    snapshot, each with a possible visit of its devices, emit different
    sequences; and when a device name is not valid UTF-8 they do not even
    emit the same metrics. *)
Lemma flatten_twice_counterexample :
  range_order (Devices vol2) [sda; sdb]
  ∧ range_order (Devices vol2) [sdb; sda]
  ∧ flatten "node" vol2 [sda; sdb] ≠ flatten "node" vol2 [sdb; sda]
  ∧ range_order (Devices vol_odd) [sda; sdx]
  ∧ range_order (Devices vol_odd) [sdx; sda]
  ∧ ¬ flatten "node" vol_odd [sda; sdx] ≡ₚ flatten "node" vol_odd [sdx; sda].
Proof.
  split; [exact range_order_vol2|]. split; [exact range_order_vol2_swapped|].
  split.
  { intros H. apply (f_equal (λ l, labelValues <$> l !! 2)) in H.
    vm_compute in H. discriminate H. }
  split; [exact range_order_vol_odd_swapped|]. split; [exact range_order_vol_odd|].
  intros H%Permutation_length.
  rewrite (proj1 flatten_vol_odd), (proj2 flatten_vol_odd) in H. discriminate H.
Qed.

Lemma layout_metrics_witness :
  namespace_valid "node" = true
  ∧ categories_present vol2 = true
  ∧ labels_valid vol2 [sda; sdb] = true
  ∧ filter (for_layout data raid1) (flatten "node" vol2 [sda; sdb])
    = [ emission "node" vol2 "used_bytes"
          "Amount of used space by a layout/data type"
          (float64_of_uint 3) [("type", "data"); ("mode", "raid1")];
        emission "node" vol2 "total_bytes"
          "Amount of space allocated for a layout/data type"
          (float64_of_uint 4) [("type", "data"); ("mode", "raid1")];
        emission "node" vol2 "ratio"
          "Data allocation ratio for a layout/data type"
          quarter [("type", "data"); ("mode", "raid1")] ]
  ∧ filter (for_layout metadata raid1) (flatten "node" vol2 [sda; sdb]) = [].
Proof.
  split; [reflexivity|]. split; [reflexivity|]. split; [reflexivity|]. split.
  - apply (layout_metrics "node" vol2 [sda; sdb] data raid1 _ eq_refl eq_refl eq_refl).
  - apply (layout_metrics "node" vol2 [sda; sdb] metadata raid1 _ eq_refl eq_refl eq_refl).
Defined.

(** C4, as the specification words it, fails: the data category of this
    snapshot has a record for the layout single, and the flattening emits
    no metric for it, the label of the snapshot not being valid UTF-8. *)
Lemma layout_metrics_counterexample :
  categories_present vol_bad = true
  ∧ category_record data (Allocation vol_bad) ≫= layout_record single
    = Some {| UsedBytes := 5; TotalBytes := 20; Ratio := quarter |}
  ∧ filter (for_layout data single) (flatten "node" vol_bad [sda]) = [].
Proof. split; [reflexivity|]. split; vm_compute; reflexivity. Qed.

Lemma category_pointers_witness :
  (is_Some (Data (Allocation vol1)) ∧ is_Some (Metadata (Allocation vol1))
   ∧ is_Some (System (Allocation vol1)))
  ∧ updateBtrfsStats "node" (Some vol1) [sda] []
    = ([] ++ flatten "node" vol1 [sda], Done tt)
  ∧ System (Allocation no_system) = None
  ∧ updateBtrfsStats "node" (Some no_system) [sda] [] = ([], Panic).
Proof.
  assert (is_Some (Data (Allocation vol1)) ∧ is_Some (Metadata (Allocation vol1))
          ∧ is_Some (System (Allocation vol1))) as Hp
    by (by apply (bool_decide_unpack _)).
  split; [exact Hp|]. split.
  - apply (proj1 (proj2 (proj2 (proj2 (category_pointers "node" vol1 [sda] []))))
             Hp eq_refl eq_refl).
  - split; [reflexivity|].
    apply (proj1 (proj2 (category_pointers "node" no_system [sda] []))).
    right. right. reflexivity.
Defined.

Lemma integer_values_witness :
  namespace_valid "node" = true
  ∧ categories_present vol1 = true
  ∧ labels_valid vol1 [sda] = true
  ∧ Forall2 carries (flatten "node" vol1 [sda]) (source_values vol1 [sda]).
Proof.
  split; [reflexivity|]. split; [reflexivity|]. split; [reflexivity|].
  apply (proj1 (proj2 (integer_values "node" vol1 [sda]))); reflexivity.
Defined.

Lemma Update_result_witness :
  Update "node" unit stats_failing {| fs := tt |} (λ _, [sda]) []
  = ([], Done (Some "failed to retrieve Btrfs stats: permission denied"))
  ∧ Update "node" unit stats_vol1 {| fs := tt |} (λ _, [sda]) []
    = ([] ++ concat (imap (λ i s, flatten "node" s [sda]) [vol1]), Done None).
Proof.
  split.
  - apply (proj1 (Update_result "node" unit stats_failing {| fs := tt |} (λ _, [sda]) [])
             [] "permission denied").
    reflexivity.
  - apply (proj1 (proj2 (Update_result "node" unit stats_vol1 {| fs := tt |}
                           (λ _, [sda]) []))
             [vol1]);
      [reflexivity | reflexivity | repeat constructor |].
    intros [|i] s; [|done]. intros [= <-]. reflexivity.
Defined.

(** C6, as the specification words it, fails: the [Stats] call succeeds
    and answers one snapshot with its three category records, and
    [Update] does not return: it panics, nothing sent, the label of the
    snapshot not being valid UTF-8. *)
Lemma Update_result_counterexample :
  stats_bad tt = ([Some vol_bad], None)
  ∧ categories_present vol_bad = true
  ∧ Update "node" unit stats_bad {| fs := tt |} (λ _, [sda]) [] = ([], Panic).
Proof. split; [reflexivity|]. split; [reflexivity|]. vm_compute. reflexivity. Qed.

Lemma NewBtrfsCollector_result_witness :
  NewBtrfsCollector unit closed_sysfs "/sys"
  = (None, Some "failed to open sysfs: no such file or directory")
  ∧ NewBtrfsCollector unit open_sysfs "/sys" = (Some {| fs := tt |}, None).
Proof.
  split.
  - apply (proj1 (NewBtrfsCollector_result unit closed_sysfs "/sys")
             tt "no such file or directory").
    reflexivity.
  - apply (proj1 (proj2 (NewBtrfsCollector_result unit open_sysfs "/sys")) tt).
    reflexivity.
Defined.

Lemma pool_visits (i : nat) (s : Stats) :
  (stats_pool tt).1 !! i = Some (Some s) →
  labels_valid s (visits i) = true
  ∧ range_order (Devices s) (visits i) ∧ range_order (Devices s) (visits_sorted i).
Proof.
  destruct i as [|[|i]]; cbn; [| |done].
  - intros [= <-]. split; [reflexivity|].
    split; [exact range_order_vol2_swapped | exact range_order_vol2].
  - intros [= <-]. split; [reflexivity|]. split; exact range_order_vol1.
Qed.

Lemma nil_sends_nothing_witness :
  categories_present no_system = false
  ∧ updateBtrfsStats "node" (Some no_system) [sda] [] = ([], Panic).
Proof.
  split; [reflexivity|].
  apply (nil_sends_nothing "node" (Some no_system) [sda] []).
  intros s [= <-]. reflexivity.
Defined.

Lemma flatten_count_bounds_witness :
  range_order (Devices vol2) [sdb; sda]
  ∧ (length (flatten "node" vol2 [sdb; sda]) ≤ size (Devices vol2) + 68)%nat
  ∧ namespace_valid "node" = true
  ∧ categories_present vol2 = true
  ∧ labels_valid vol2 [sdb; sda] = true
  ∧ (size (Devices vol2) + 5 ≤ length (flatten "node" vol2 [sdb; sda]))%nat.
Proof.
  split; [exact range_order_vol2_swapped|].
  pose proof (flatten_count_bounds "node" vol2 [sdb; sda] range_order_vol2_swapped)
    as [Hle Hge].
  split; [exact Hle|]. split; [reflexivity|]. split; [reflexivity|].
  split; [reflexivity|]. exact (Hge eq_refl eq_refl eq_refl).
Defined.

Lemma device_metric_lookup_witness :
  namespace_valid "node" = true
  ∧ categories_present vol2 = true
  ∧ labels_valid vol2 [sdb; sda] = true
  ∧ range_order (Devices vol2) [sdb; sda]
  ∧ filter (for_device "sdb") (flatten "node" vol2 [sdb; sda])
    = match Devices vol2 !! "sdb" with
      | Some d =>
          [ emission "node" vol2 "device_size"
              "Size of a device that is part of the filesystem."
              (float64_of_uint (Size d)) [("device", "sdb")] ]
      | None => []
      end
  ∧ Devices vol2 !! "sdb" = Some {| Size := 200 |}.
Proof.
  split; [reflexivity|]. split; [reflexivity|]. split; [reflexivity|].
  split; [exact range_order_vol2_swapped|]. split.
  - apply (device_metric_lookup "node" vol2 [sdb; sda] "sdb");
      [reflexivity | reflexivity | reflexivity | exact range_order_vol2_swapped].
  - vm_compute. reflexivity.
Defined.

Lemma device_count_agrees_witness :
  namespace_valid "node" = true
  ∧ categories_present vol2 = true
  ∧ labels_valid vol2 [sdb; sda] = true
  ∧ range_order (Devices vol2) [sdb; sda]
  ∧ val <$> flatten "node" vol2 [sdb; sda] !! 0
    = Some (float64_of_uint
              (N.of_nat (length (filter about_device (flatten "node" vol2 [sdb; sda]))))).
Proof.
  split; [reflexivity|]. split; [reflexivity|]. split; [reflexivity|].
  split; [exact range_order_vol2_swapped|].
  apply (device_count_agrees "node" vol2 [sdb; sda]);
    [reflexivity | reflexivity | reflexivity | exact range_order_vol2_swapped].
Defined.

Lemma flatten_series_NoDup_witness :
  range_order (Devices vol2) [sdb; sda]
  ∧ NoDup (series <$> flatten "node" vol2 [sdb; sda]).
Proof.
  split; [exact range_order_vol2_swapped|].
  apply (flatten_series_NoDup "node" vol2 [sdb; sda]). exact range_order_vol2_swapped.
Defined.

Lemma float64_of_uint_accurate_witness :
  (2 ^ 53 + 1 < 2 ^ 64)%N
  ∧ ∃ z : Z, float64_int (float64_of_uint (2 ^ 53 + 1)) = Some z ∧ (0 <= z)%Z
             ∧ ((2 ^ 53 + 1 < 2 ^ 53)%N → z = Z.of_N (2 ^ 53 + 1))
             ∧ (Z.abs (z - Z.of_N (2 ^ 53 + 1)) * 2 ^ 52 <= Z.of_N (2 ^ 53 + 1))%Z.
Proof.
  split; [reflexivity|].
  apply (float64_of_uint_accurate (2 ^ 53 + 1)). reflexivity.
Defined.

Lemma Update_progress_witness :
  namespace_valid "node" = true
  ∧ stats_broken tt = ([Some vol2; Some no_system; Some vol1], None)
  ∧ Update "node" unit stats_broken {| fs := tt |} visits []
    = ([] ++ concat (imap (λ i s, flatten "node" s (visits i))
                          (attempted visits 0 [Some vol2; Some no_system; Some vol1])),
       if all_complete visits 0 [Some vol2; Some no_system; Some vol1]
       then Done None else Panic)
  ∧ attempted visits 0 [Some vol2; Some no_system; Some vol1] = [vol2; no_system]
  ∧ all_complete visits 0 [Some vol2; Some no_system; Some vol1] = false.
Proof.
  split; [reflexivity|]. split; [reflexivity|]. split.
  - apply (Update_progress "node" unit stats_broken {| fs := tt |} visits []);
      reflexivity.
  - split; reflexivity.
Defined.

Lemma Update_returns_nil_witness :
  namespace_valid "node" = true
  ∧ (Update "node" unit stats_pool {| fs := tt |} visits []).2 = Done None.
Proof.
  split; [reflexivity|].
  apply (proj2 (Update_returns_nil "node" unit stats_pool {| fs := tt |} visits []
                  eq_refl)).
  split; [reflexivity|].
  intros i o Hi. destruct i as [|[|i]]; cbn in Hi; [| |done].
  - injection Hi as <-. exists vol2. by repeat split.
  - injection Hi as <-. exists vol1. by repeat split.
Defined.

Lemma Update_visits_witness :
  namespace_valid "node" = true
  ∧ (Update "node" unit stats_pool {| fs := tt |} visits []).1
    ≡ₚ (Update "node" unit stats_pool {| fs := tt |} visits_sorted []).1
  ∧ (Update "node" unit stats_pool {| fs := tt |} visits []).2
    = (Update "node" unit stats_pool {| fs := tt |} visits_sorted []).2.
Proof.
  split; [reflexivity|].
  apply (Update_visits "node" unit stats_pool {| fs := tt |} visits visits_sorted []);
    [reflexivity | exact pool_visits].
Defined.

Lemma Update_series_NoDup_witness :
  NoDup ((λ s, (Label s, UUID s)) <$> omap id (stats_pool tt).1)
  ∧ NoDup (series <$> (Update "node" unit stats_pool {| fs := tt |} visits []).1).
Proof.
  assert (NoDup ((λ s, (Label s, UUID s)) <$> omap id (stats_pool tt).1)) as Hnd.
  { apply (bool_decide_unpack _). vm_compute. exact I. }
  split; [exact Hnd|].
  apply (Update_series_NoDup "node" unit stats_pool {| fs := tt |} visits);
    [|exact Hnd].
  intros i s Hi. exact (proj1 (proj2 (pool_visits i s Hi))).
Defined.
